(** * SAP-1 virtual machine, assembler and toy compiler

    A shallow embedding of [SAP1.py] (the CPU, its run loop and the
    two-pass assembler) and of [sap1_playground.py] (the toy compiler
    and the playground interpreter), followed by the properties proved
    about them.

    Python integers are unbounded, so they are [Z] and every mask is
    written out with [Z.land].  Python text is embedded as [string];
    the text operations below are those of Python on ASCII code points.
    An exception that Python raises is a value of [exn]; a method that
    mutates the CPU is a computation in the monad [SAP1.M], which
    threads the CPU record, collects the lines printed on standard
    output and stops at the first exception, keeping the mutations made
    before it. *)

From Stdlib Require Import ZArith String Ascii List Bool Lia.
From Stdlib Require DecimalString HexadecimalString.
From stdpp Require Import base option list gmap strings.

Local Open Scope string_scope.
Local Open Scope list_scope.

(** ** Python built-ins used by the sources *)

Module PyStr.

Definition code (c : ascii) : N := N_of_ascii c.

Definition chr (n : N) : ascii := ascii_of_N n.

Definition between (lo hi : N) (c : ascii) : bool :=
  ((lo <=? code c) && (code c <=? hi))%N.

(** [str.isspace] on one ASCII character: tab to carriage return, the
    four separators FS..US and the blank. *)
Definition isspace (c : ascii) : bool := between 9 13 c || between 28 32 c.

(** C's [isspace], which [int()] uses on ASCII text. *)
Definition c_isspace (c : ascii) : bool := between 9 13 c || (code c =? 32)%N.

(** The line boundaries of [str.splitlines] below code point 128. *)
Definition is_linebreak (c : ascii) : bool := between 10 13 c || between 28 30 c.

Definition is_digit (c : ascii) : bool := between 48 57 c.

Definition is_empty (s : string) : bool :=
  match s with EmptyString => true | String _ _ => false end.

Definition snoc (s : string) (c : ascii) : string := s +:+ String c EmptyString.

Fixpoint lstrip_by (sp : ascii -> bool) (s : string) : string :=
  match s with
  | EmptyString => EmptyString
  | String c r => if sp c then lstrip_by sp r else s
  end.

Fixpoint rstrip_by (sp : ascii -> bool) (s : string) : string :=
  match s with
  | EmptyString => EmptyString
  | String c r =>
      let r' := rstrip_by sp r in
      if sp c && is_empty r' then EmptyString else String c r'
  end.

(** [s.strip()] *)
Definition strip (s : string) : string := lstrip_by isspace (rstrip_by isspace s).

(** [s.split(sep)] and [s.split(sep, maxsplit)] for a one-character
    separator; [limit = None] is the unbounded form. *)
Fixpoint split_aux (sep : ascii) (limit : option nat) (cur s : string) : list string :=
  match s with
  | EmptyString => [cur]
  | String c r =>
      match limit with
      | Some O => [cur +:+ s]
      | _ =>
          if Ascii.eqb c sep
          then cur :: split_aux sep (Nat.pred <$> limit) EmptyString r
          else split_aux sep limit (snoc cur c) r
      end
  end.

Definition split (sep : ascii) (s : string) : list string :=
  split_aux sep None EmptyString s.

Definition split_max (sep : ascii) (maxsplit : nat) (s : string) : list string :=
  split_aux sep (Some maxsplit) EmptyString s.

(** [s.split()]: the maximal runs of non-blank characters. *)
Fixpoint split_ws_aux (cur s : string) : list string :=
  match s with
  | EmptyString => if is_empty cur then [] else [cur]
  | String c r =>
      if isspace c
      then (if is_empty cur then split_ws_aux EmptyString r
            else cur :: split_ws_aux EmptyString r)
      else split_ws_aux (snoc cur c) r
  end.

Definition split_ws (s : string) : list string := split_ws_aux EmptyString s.

(** [s.splitlines()]: a carriage return followed by a line feed is one
    boundary, and no empty line is reported after the last boundary. *)
Fixpoint splitlines_aux (cur s : string) : list string :=
  match s with
  | EmptyString => if is_empty cur then [] else [cur]
  | String c r =>
      if is_linebreak c then
        match r with
        | String c' r' =>
            if (code c =? 13)%N && (code c' =? 10)%N
            then cur :: splitlines_aux EmptyString r'
            else cur :: splitlines_aux EmptyString r
        | EmptyString => [cur]
        end
      else splitlines_aux (snoc cur c) r
  end.

Definition splitlines (s : string) : list string := splitlines_aux EmptyString s.

(** [sep.join(l)] *)
Fixpoint join (sep : string) (l : list string) : string :=
  match l with
  | [] => EmptyString
  | [x] => x
  | x :: r => x +:+ sep +:+ join sep r
  end.

Fixpoint startswith (p s : string) : bool :=
  match p, s with
  | EmptyString, _ => true
  | String a p', String b s' => Ascii.eqb a b && startswith p' s'
  | String _ _, EmptyString => false
  end.

(** [s.endswith(c)] for a one-character suffix *)
Fixpoint endswith_char (c : ascii) (s : string) : bool :=
  match s with
  | EmptyString => false
  | String a EmptyString => Ascii.eqb a c
  | String _ r => endswith_char c r
  end.

(** [s[:-1]] *)
Fixpoint drop_last (s : string) : string :=
  match s with
  | EmptyString => EmptyString
  | String _ EmptyString => EmptyString
  | String a r => String a (drop_last r)
  end.

(** [s[1:]] *)
Definition drop_first (s : string) : string :=
  match s with EmptyString => EmptyString | String _ r => r end.

(** [c in s] for a one-character [c] *)
Fixpoint contains_char (c : ascii) (s : string) : bool :=
  match s with
  | EmptyString => false
  | String a r => Ascii.eqb a c || contains_char c r
  end.

Fixpoint map_chars (f : ascii -> ascii) (s : string) : string :=
  match s with
  | EmptyString => EmptyString
  | String a r => String (f a) (map_chars f r)
  end.

(** [s.replace(a, b)] for one-character [a] and [b] *)
Definition replace_char (a b : ascii) (s : string) : string :=
  map_chars (fun c => if Ascii.eqb c a then b else c) s.

Definition upper_char (c : ascii) : ascii :=
  if between 97 122 c then chr (code c - 32) else c.

(** [s.upper()] *)
Definition upper (s : string) : string := map_chars upper_char s.

Fixpoint all_chars (p : ascii -> bool) (s : string) : bool :=
  match s with
  | EmptyString => true
  | String a r => p a && all_chars p r
  end.

(** [s.isdigit()] *)
Definition isdigit (s : string) : bool := negb (is_empty s) && all_chars is_digit s.

(** [s.isascii()]: every code point is below 128. *)
Definition isascii (s : string) : bool := all_chars (fun c => (code c <? 128)%N) s.

(** *** Integer literals: [int(s)] and [int(s, 0)]

    The grammar is the one of the interpreter: blanks around the literal,
    an optional sign, digits with single underscores between them.  The
    interpreter's configurable cap on the number of decimal digits is not
    part of the model. *)

Definition digit_value (c : ascii) : option Z :=
  if between 48 57 c then Some (Z.of_N (code c) - 48)%Z
  else if between 97 122 c then Some (Z.of_N (code c) - 87)%Z
  else if between 65 90 c then Some (Z.of_N (code c) - 55)%Z
  else None.

Definition is_underscore (c : ascii) : bool := (code c =? 95)%N.

(** Digits in [base], single underscores allowed between two digits. *)
Fixpoint digits_aux (base acc : Z) (after_underscore : bool) (s : string) : option Z :=
  match s with
  | EmptyString => if after_underscore then None else Some acc
  | String c r =>
      if is_underscore c then
        if after_underscore then None else digits_aux base acc true r
      else
        match digit_value c with
        | Some d => if (d <? base)%Z then digits_aux base (acc * base + d)%Z false r else None
        | None => None
        end
  end.

Definition digits (base : Z) (s : string) : option Z :=
  match s with
  | EmptyString => None
  | String c _ => if is_underscore c then None else digits_aux base 0%Z false s
  end.

(** One underscore may follow a base prefix. *)
Definition skip_underscore (s : string) : string :=
  match s with
  | String c r => if is_underscore c then r else s
  | EmptyString => s
  end.

Definition is_letter (lower : N) (c : ascii) : bool :=
  ((code c =? lower) || (code c =? lower - 32))%N.

(** The unsigned part of a literal.  With [base0 = true] the base is read
    from the prefix [0x], [0o] or [0b], and a decimal literal that starts
    with the digit zero must denote zero. *)
Definition unsigned_literal (base0 : bool) (s : string) : option Z :=
  if base0 then
    match s with
    | String z (String p r) =>
        if (code z =? 48)%N then
          if is_letter 120 p then digits 16 (skip_underscore r)
          else if is_letter 111 p then digits 8 (skip_underscore r)
          else if is_letter 98 p then digits 2 (skip_underscore r)
          else match digits 10 s with
               | Some 0%Z => Some 0%Z
               | _ => None
               end
        else digits 10 s
    | _ => digits 10 s
    end
  else digits 10 s.

Definition literal (base0 : bool) (s : string) : option Z :=
  let t := lstrip_by c_isspace (rstrip_by c_isspace s) in
  match t with
  | String c r =>
      if (code c =? 43)%N then unsigned_literal base0 r
      else if (code c =? 45)%N then Z.opp <$> unsigned_literal base0 r
      else unsigned_literal base0 t
  | EmptyString => None
  end.

(** *** Formatting integers *)

(** [str(n)], also what an f-string field without a format gives *)
Definition str_int (n : Z) : string :=
  DecimalString.NilZero.string_of_int (Z.to_int n).

Definition hex_digits (n : N) : string :=
  upper (HexadecimalString.NilZero.string_of_uint (N.to_hex_uint n)).

Fixpoint zeros (n : nat) : string :=
  match n with O => EmptyString | S k => String (chr 48) (zeros k) end.

(** [format(n, "0<width>X")]; [width = 0] is the plain ["X"].  The zero
    padding goes between the sign and the digits. *)
Definition fmt_X (width : nat) (n : Z) : string :=
  let d := hex_digits (Z.abs_N n) in
  if (n <? 0)%Z
  then String (chr 45) (zeros (width - 1 - String.length d) +:+ d)
  else zeros (width - String.length d) +:+ d.

(** [str(b)] for a boolean *)
Definition str_bool (b : bool) : string := if b then "True" else "False".

End PyStr.

(** Indexing a Python list with an integer: a negative index counts from
    the end, and an index outside [-len, len) raises [IndexError]. *)
Module PyList.

Definition index (len : nat) (i : Z) : option nat :=
  if (0 <=? i)%Z then
    if (i <? Z.of_nat len)%Z then Some (Z.to_nat i) else None
  else
    if (0 <=? i + Z.of_nat len)%Z then Some (Z.to_nat (i + Z.of_nat len)) else None.

Definition getitem {X : Type} (l : list X) (i : Z) : option X :=
  n ← index (length l) i; l !! n.

Definition setitem {X : Type} (l : list X) (i : Z) (x : X) : option (list X) :=
  n ← index (length l) i; Some (<[n := x]> l).

End PyList.

(** ** Exceptions *)

Inductive value_error : Type :=
| Message (msg : string)                       (* raised by the source with this text *)
| InvalidLiteral (base : Z) (tok : string)     (* [int(tok, base)] on an unparseable token *)
| Unpack (expected got : nat).                 (* a tuple assignment of the wrong length *)

Inductive exn : Type :=
| IndexError                                   (* list index out of range *)
| KeyError (key : string)                      (* a dictionary has no such key *)
| ValueError (why : value_error)
| TypeError                                    (* an operand of the wrong type *)
| AsmError (msg : string).                     (* the assembler's own exception class *)

(** A call either returns a value or raises. *)
Inductive result (X : Type) : Type :=
| Return (x : X)
| Raise (e : exn).
Arguments Return {X} x.
Arguments Raise {X} e.

#[global] Instance result_ret : MRet result := fun _ x => Return x.
#[global] Instance result_bind : MBind result := fun _ _ f m =>
  match m with
  | Return x => f x
  | Raise e => Raise e
  end.

Definition of_option {X : Type} (e : exn) (o : option X) : result X :=
  match o with Some x => Return x | None => Raise e end.

(** [int(tok)] and [int(tok, 0)] *)
Definition py_int (base0 : bool) (tok : string) : result Z :=
  of_option (ValueError (InvalidLiteral (if base0 then 0 else 10) tok))
            (PyStr.literal base0 tok).

(** ** [SAP1.py] *)

Module SAP1.

Local Open Scope Z_scope.

Definition u8 (x : Z) : Z := Z.land x 0xFF.

Definition u4 (x : Z) : Z := Z.land x 0xF.

(** The dataclass [SAP1]. *)
Record SAP1 : Type := mkSAP1 {
  memory : list Z;
  A : Z;
  B : Z;
  OUT : Z;
  IR : Z;
  PC : Z;
  MAR : Z;
  halted : bool;
  t_state : Z;
  trace_instructions : bool;
  trace_microsteps : bool
}.

(** [SAP1()]: the field defaults. *)
Definition fresh : SAP1 :=
  {| memory := replicate 16 0; A := 0; B := 0; OUT := 0; IR := 0; PC := 0; MAR := 0;
     halted := false; t_state := 0; trace_instructions := true; trace_microsteps := false |}.

(** Attribute assignments. *)
Definition set_memory (v : list Z) (s : SAP1) : SAP1 :=
  mkSAP1 v (A s) (B s) (OUT s) (IR s) (PC s) (MAR s) (halted s) (t_state s)
         (trace_instructions s) (trace_microsteps s).
Definition set_A (v : Z) (s : SAP1) : SAP1 :=
  mkSAP1 (memory s) v (B s) (OUT s) (IR s) (PC s) (MAR s) (halted s) (t_state s)
         (trace_instructions s) (trace_microsteps s).
Definition set_B (v : Z) (s : SAP1) : SAP1 :=
  mkSAP1 (memory s) (A s) v (OUT s) (IR s) (PC s) (MAR s) (halted s) (t_state s)
         (trace_instructions s) (trace_microsteps s).
Definition set_OUT (v : Z) (s : SAP1) : SAP1 :=
  mkSAP1 (memory s) (A s) (B s) v (IR s) (PC s) (MAR s) (halted s) (t_state s)
         (trace_instructions s) (trace_microsteps s).
Definition set_IR (v : Z) (s : SAP1) : SAP1 :=
  mkSAP1 (memory s) (A s) (B s) (OUT s) v (PC s) (MAR s) (halted s) (t_state s)
         (trace_instructions s) (trace_microsteps s).
Definition set_PC (v : Z) (s : SAP1) : SAP1 :=
  mkSAP1 (memory s) (A s) (B s) (OUT s) (IR s) v (MAR s) (halted s) (t_state s)
         (trace_instructions s) (trace_microsteps s).
Definition set_MAR (v : Z) (s : SAP1) : SAP1 :=
  mkSAP1 (memory s) (A s) (B s) (OUT s) (IR s) (PC s) v (halted s) (t_state s)
         (trace_instructions s) (trace_microsteps s).
Definition set_halted (v : bool) (s : SAP1) : SAP1 :=
  mkSAP1 (memory s) (A s) (B s) (OUT s) (IR s) (PC s) (MAR s) v (t_state s)
         (trace_instructions s) (trace_microsteps s).
Definition set_t_state (v : Z) (s : SAP1) : SAP1 :=
  mkSAP1 (memory s) (A s) (B s) (OUT s) (IR s) (PC s) (MAR s) (halted s) v
         (trace_instructions s) (trace_microsteps s).

(** *** The monad of the methods

    A method takes the object, and gives back what it returned or
    raised, the object as it left it, and the lines it printed. *)
Definition M (X : Type) : Type := SAP1 -> result X * SAP1 * list string.

#[global] Instance M_ret : MRet M := fun _ x s => (Return x, s, []).
#[global] Instance M_bind : MBind M := fun _ _ f m s =>
  match m s with
  | (Return x, s', out) =>
      match f x s' with
      | (r, s'', out') => (r, s'', (out ++ out')%list)
      end
  | (Raise e, s', out) => (Raise e, s', out)
  end.

Definition raise {X : Type} (e : exn) : M X := fun s => (Raise e, s, []).
Definition get {X : Type} (field : SAP1 -> X) : M X := fun s => (Return (field s), s, []).
Definition assign (set : SAP1 -> SAP1) : M unit := fun s => (Return tt, set s, []).
Definition print (line : string) : M unit := fun s => (Return tt, s, [line]).
Definition when (b : bool) (m : M unit) : M unit := if b then m else mret tt.

(** [self.memory[i]] *)
Definition mem_get (i : Z) : M Z := fun s =>
  match PyList.getitem (memory s) i with
  | Some v => (Return v, s, [])
  | None => (Raise IndexError, s, [])
  end.

(** [self.memory[i] = v] *)
Definition mem_set (i v : Z) : M unit := fun s =>
  match PyList.setitem (memory s) i v with
  | Some m => (Return tt, set_memory m s, [])
  | None => (Raise IndexError, s, [])
  end.

(** What a call left behind. *)
Definition outcome {X : Type} (r : result X * SAP1 * list string) : result X := r.1.1.
Definition state_after {X : Type} (r : result X * SAP1 * list string) : SAP1 := r.1.2.
Definition printed {X : Type} (r : result X * SAP1 * list string) : list string := r.2.

(** *** The methods *)

Definition reset : M unit :=
  assign (set_A 0);; assign (set_B 0);; assign (set_OUT 0);; assign (set_IR 0);;
  assign (set_PC 0);; assign (set_MAR 0);;
  assign (set_halted false);;
  assign (set_t_state 0).

Definition _fetch_cycle : M unit :=
  pc ← get PC; assign (set_MAR (u4 pc));;
  tm ← get trace_microsteps;
  when tm (pc ← get PC; print ("T0: MAR <- PC = " +:+ PyStr.fmt_X 1 pc));;
  assign (set_t_state 1);;
  mar ← get MAR; v ← mem_get mar; assign (set_IR (u8 v));;
  tm ← get trace_microsteps;
  when tm (ir ← get IR;
           print ("T1: IR <- M[MAR] = " +:+ PyStr.fmt_X 2 ir +:+ "; PC <- PC+1"));;
  pc ← get PC; assign (set_PC (u4 (pc + 1)));;
  assign (set_t_state 2).

Definition _decode : M (Z * Z) :=
  ir ← get IR;
  let opcode := Z.land (Z.shiftr ir 4) 0xF in
  let addr := Z.land ir 0xF in
  tm ← get trace_microsteps;
  when tm (print ("T2: Decode -> opcode=" +:+ PyStr.fmt_X 0 opcode +:+
                  ", addr=" +:+ PyStr.fmt_X 0 addr));;
  assign (set_t_state 3);;
  mret (opcode, addr).

Definition _exec_LDA (addr : Z) : M unit :=
  assign (set_MAR (u4 addr));;
  mar ← get MAR; v ← mem_get mar; assign (set_A (u8 v));;
  assign (set_t_state 0).

Definition _exec_ADD (addr : Z) : M unit :=
  assign (set_MAR (u4 addr));;
  mar ← get MAR; v ← mem_get mar; assign (set_B (u8 v));;
  a ← get A; b ← get B; assign (set_A (u8 (a + b)));;
  assign (set_t_state 0).

Definition _exec_SUB (addr : Z) : M unit :=
  assign (set_MAR (u4 addr));;
  mar ← get MAR; v ← mem_get mar; assign (set_B (u8 v));;
  a ← get A; b ← get B; assign (set_A (u8 (a - b)));;
  assign (set_t_state 0).

Definition _exec_STA (addr : Z) : M unit :=
  assign (set_MAR (u4 addr));;
  mar ← get MAR; a ← get A; mem_set mar (u8 a);;
  assign (set_t_state 0).

Definition _exec_OUT : M unit :=
  a ← get A; assign (set_OUT (u8 a));;
  assign (set_t_state 0).

Definition _exec_HLT : M unit :=
  assign (set_halted true);;
  assign (set_t_state 0).

(** The opcode dispatch of [step]: the text of the trace message is
    fixed before the instruction runs. *)
Definition execute (opcode addr : Z) : M string :=
  if opcode =? 0x1 then
    let trace_msg := "LDA " +:+ PyStr.fmt_X 0 addr in
    _exec_LDA addr;; mret trace_msg
  else if opcode =? 0x2 then
    let trace_msg := "ADD " +:+ PyStr.fmt_X 0 addr in
    _exec_ADD addr;; mret trace_msg
  else if opcode =? 0x3 then
    let trace_msg := "SUB " +:+ PyStr.fmt_X 0 addr in
    _exec_SUB addr;; mret trace_msg
  else if opcode =? 0x4 then
    let trace_msg := "STA " +:+ PyStr.fmt_X 0 addr in
    _exec_STA addr;; mret trace_msg
  else if opcode =? 0xE then
    a ← get A;
    let trace_msg := "OUT (A=" +:+ PyStr.fmt_X 2 a +:+ ")" in
    _exec_OUT;; mret trace_msg
  else if opcode =? 0xF then
    let trace_msg := "HLT" in
    _exec_HLT;; mret trace_msg
  else
    ir ← get IR;
    raise (ValueError (Message ("Unknown opcode " +:+ PyStr.fmt_X 0 opcode +:+
                                " in IR=" +:+ PyStr.fmt_X 2 ir))).

Definition trace_line (s : SAP1) (trace_msg : string) : string :=
  "PC=" +:+ PyStr.fmt_X 1 (PC s) +:+ " IR=" +:+ PyStr.fmt_X 2 (IR s) +:+
  " A=" +:+ PyStr.fmt_X 2 (A s) +:+ " B=" +:+ PyStr.fmt_X 2 (B s) +:+
  " OUT=" +:+ PyStr.fmt_X 2 (OUT s) +:+ " :: " +:+ trace_msg.

Definition step : M (option string) :=
  h ← get halted;
  if h : bool then mret None else
  _fetch_cycle;;
  '(opcode, addr) ← _decode;
  trace_msg ← execute opcode addr;
  ti ← get trace_instructions;
  if ti : bool then s ← get id; mret (Some (trace_line s trace_msg))
  else mret None.

(** [run]: [fuel] is the number of steps still allowed,
    [max_steps - steps]. *)
Fixpoint run_loop (fuel : nat) (trace : list string) : M (list string) :=
  match fuel with
  | O => mret trace
  | S fuel' =>
      h ← get halted;
      if h : bool then mret trace else
      msg ← step;
      let trace' :=
        match msg with
        | Some m => if PyStr.is_empty m then trace else (trace ++ [m])%list
        | None => trace
        end in
      run_loop fuel' trace'
  end.

Definition run (max_steps : Z) : M (list string) := run_loop (Z.to_nat max_steps) [].

Definition default_max_steps : Z := 1000.

Fixpoint load_program (bytes_at_addresses : list (Z * Z)) : M unit :=
  match bytes_at_addresses with
  | [] => mret tt
  | (addr, byte) :: rest => mem_set (u4 addr) (u8 byte);; load_program rest
  end.

(** *** The assembler *)

Definition OPCODES : gmap string Z :=
  list_to_map [("LDA", 0x1); ("ADD", 0x2); ("SUB", 0x3); ("STA", 0x4);
               ("OUT", 0xE); ("HLT", 0xF)].

(** [raw.split(';', 1)[0].strip()]; a split is never empty, so the
    index [0] is always there. *)
Definition clean_line (raw : string) : string :=
  PyStr.strip (hd EmptyString (PyStr.split_max ";" 1 raw)).

Definition cleaned_lines (lines : list string) : list string :=
  filter (fun line => negb (PyStr.is_empty line) = true) (clean_line <$> lines).

(** The locals of the first pass. *)
Record layout : Type := mkLayout {
  labels : gmap string Z;
  pc : Z;
  items : list (string * option string)
}.

Definition layout_line (line : string) (st : layout) : result layout :=
  if PyStr.endswith_char ":" line then
    Return (mkLayout (<[PyStr.strip (PyStr.drop_last line) := pc st]> (labels st))
                     (pc st) (items st))
  else
    let parts := PyStr.split_ws (PyStr.replace_char "," " " line) in
    part0 ← of_option IndexError (parts !! 0%nat);
    let head := PyStr.upper part0 in
    if String.eqb head ".BYTE" then
      part1 ← of_option IndexError (parts !! 1%nat);
      Return (mkLayout (labels st) (pc st + 1) (items st ++ [(".BYTE", Some part1)])%list)
    else
      match OPCODES !! head with
      | Some _ =>
          let opnd := parts !! 1%nat in
          Return (mkLayout (labels st) (pc st + 1) (items st ++ [(head, opnd)])%list)
      | None => Raise (AsmError ("Unknown directive or mnemonic: " +:+ head))
      end.

Fixpoint layout_lines (cleaned : list string) (st : layout) : result layout :=
  match cleaned with
  | [] => Return st
  | line :: rest => st' ← layout_line line st; layout_lines rest st'
  end.

Definition parse_addr (labels : gmap string Z) (tok : option string) : result Z :=
  match tok with
  | None => Return 0
  | Some t =>
      match labels !! t with
      | Some a => Return a
      | None => py_int true t
      end
  end.

Definition encode_item (labels : gmap string Z) (item : string * option string) : result Z :=
  let '(mnemonic, opnd) := item in
  if String.eqb mnemonic ".BYTE" then
    t ← of_option TypeError opnd;
    v ← py_int true t;
    Return (Z.land v 0xFF)
  else
    opcode ← of_option (KeyError mnemonic) (OPCODES !! mnemonic);
    if String.eqb mnemonic "OUT" || String.eqb mnemonic "HLT" then
      Return (Z.shiftl opcode 4)
    else
      addr ← parse_addr labels opnd;
      Return (Z.lor (Z.shiftl (Z.land opcode 0xF) 4) (Z.land addr 0xF)).

Fixpoint encode_items (labels : gmap string Z) (out : list Z)
    (items : list (string * option string)) : result (list Z) :=
  match items with
  | [] => Return out
  | item :: rest =>
      byte ← encode_item labels item;
      encode_items labels (out ++ [byte])%list rest
  end.

Definition assemble (lines : list string) : result (list Z) :=
  let cleaned := cleaned_lines lines in
  st ← layout_lines cleaned (mkLayout ∅ 0 []);
  encode_items (labels st) [] (items st).

(** *** The demo *)

Definition demo_asm : list string :=
  [ "        LDA a";
    "        ADD b";
    "        STA c";
    "        LDA c";
    "        OUT";
    "        HLT";
    "a:      .byte 5";
    "b:      .byte 7";
    "c:      .byte 0" ].

(** [for i, byte in enumerate(code): cpu.memory[i] = byte & 0xFF] *)
Fixpoint store_code (i : Z) (code : list Z) : M unit :=
  match code with
  | [] => mret tt
  | byte :: rest => mem_set i (Z.land byte 0xFF);; store_code (i + 1) rest
  end.

Definition final_line (s : SAP1) : string :=
  "FINAL: A=" +:+ PyStr.fmt_X 2 (A s) +:+ " OUT=" +:+ PyStr.fmt_X 2 (OUT s) +:+
  " halted=" +:+ PyStr.str_bool (halted s).

(** What the demo does with the assembled bytes, on the CPU it made. *)
Definition load_and_run (code : list Z) : M (list string) :=
  store_code 0 code;;
  trace ← run default_max_steps;
  s ← get id;
  mret (trace ++ [final_line s])%list.

Definition demo_on (asm : list string) : result (list string) :=
  code ← assemble asm;
  outcome (load_and_run code fresh).

Definition demo_program_sta : result (list string) := demo_on demo_asm.

End SAP1.

(** ** [sap1_playground.py] *)

Module sap1_playground.

Local Open Scope Z_scope.

Definition newline : string := String (PyStr.chr 10) EmptyString.

(** [a, b = l] *)
Definition unpack2 {X : Type} (l : list X) : result (X * X) :=
  match l with
  | [a; b] => Return (a, b)
  | _ => Raise (ValueError (Unpack 2 (length l)))
  end.

(** *** The compiler *)

(** The locals of [compile_toy]. *)
Record compiler : Type := mkCompiler {
  assembly : list string;
  variables : gmap string Z;
  mem_ptr : Z
}.

(** [variables[name]] *)
Definition variable (st : compiler) (name : string) : result Z :=
  of_option (KeyError name) (variables st !! name).

Definition compile_line (line : string) (st : compiler) : result compiler :=
  if PyStr.startswith "print" line then
    var ← of_option IndexError (PyStr.split_ws line !! 1%nat);
    addr ← variable st var;
    Return (mkCompiler (assembly st ++ ["    LDA " +:+ PyStr.str_int addr; "    OUT"])%list
                       (variables st) (mem_ptr st))
  else if PyStr.contains_char "=" line then
    '(left_, right_) ← unpack2 (PyStr.strip <$> PyStr.split "=" line);
    if PyStr.contains_char "+" right_ then
      '(a, b) ← unpack2 (PyStr.strip <$> PyStr.split "+" right_);
      addr_a ← variable st a;
      addr_b ← variable st b;
      Return (mkCompiler
                (assembly st ++ ["    LDA " +:+ PyStr.str_int addr_a;
                                 "    ADD " +:+ PyStr.str_int addr_b;
                                 "    STA " +:+ PyStr.str_int (mem_ptr st)])%list
                (<[left_ := mem_ptr st]> (variables st))
                (mem_ptr st - 1))
    else if PyStr.isdigit right_ then
      Return (mkCompiler
                (assembly st ++ ["    LDA #" +:+ right_;
                                 "    STA " +:+ PyStr.str_int (mem_ptr st)])%list
                (<[left_ := mem_ptr st]> (variables st))
                (mem_ptr st - 1))
    else
      addr ← variable st right_;
      Return (mkCompiler (assembly st) (<[left_ := addr]> (variables st)) (mem_ptr st))
  else Return st.

Fixpoint compile_lines (lines : list string) (st : compiler) : result compiler :=
  match lines with
  | [] => Return st
  | line :: rest => st' ← compile_line line st; compile_lines rest st'
  end.

(** [[line.strip() for line in source.split(";") if line.strip()]] *)
Definition statements (source : string) : list string :=
  PyStr.strip <$>
    filter (fun line => negb (PyStr.is_empty (PyStr.strip line)) = true)
           (PyStr.split ";" source).

Definition compile_toy (source : string) : result string :=
  st ← compile_lines (statements source) (mkCompiler [] ∅ 0x0E);
  Return (PyStr.join newline (assembly st ++ ["    HLT"])%list).

(** *** The interpreter *)

(** The pairs [(name, arg)] that [run] puts in [code]. *)
Inductive instr : Type :=
| LDA (arg : Z)
| LDA_IMM (arg : Z)
| STA (arg : Z)
| ADD (arg : Z)
| OUT
| HLT.

(** One turn of the parsing loop: [code] is the list so far. *)
Definition parse_line (raw : string) (code : list instr) : result (list instr) :=
  let line := PyStr.strip raw in
  if PyStr.is_empty line || PyStr.startswith "." line then Return code
  else
    let parts := PyStr.split_ws line in
    part0 ← of_option IndexError (parts !! 0%nat);
    if String.eqb part0 "LDA" then
      part1 ← of_option IndexError (parts !! 1%nat);
      if PyStr.startswith "#" part1 then
        n ← py_int false (PyStr.drop_first part1);
        Return (code ++ [LDA_IMM n])%list
      else
        n ← py_int false part1;
        Return (code ++ [LDA n])%list
    else if String.eqb part0 "STA" then
      part1 ← of_option IndexError (parts !! 1%nat);
      n ← py_int false part1;
      Return (code ++ [STA n])%list
    else if String.eqb part0 "ADD" then
      part1 ← of_option IndexError (parts !! 1%nat);
      n ← py_int false part1;
      Return (code ++ [ADD n])%list
    else if String.eqb part0 "OUT" then Return (code ++ [OUT])%list
    else if String.eqb part0 "HLT" then Return (code ++ [HLT])%list
    else Return code.

Fixpoint parse_lines (lines : list string) (code : list instr) : result (list instr) :=
  match lines with
  | [] => Return code
  | raw :: rest => code' ← parse_line raw code; parse_lines rest code'
  end.

Definition parse (assembly : string) : result (list instr) :=
  parse_lines (PyStr.splitlines assembly) [].

(** The locals of the execute loop, and the lines printed so far. *)
Record vm : Type := mkVm {
  memory : list Z;
  acc : Z;
  pc : Z;
  output : list Z;
  console : list string
}.

Definition boot : vm := mkVm (replicate 16 0) 0 0 [] [].

(** The body of the loop up to [pc += 1]: [None] is [break]. *)
Definition execute (i : instr) (st : vm) : result (option vm) :=
  match i with
  | LDA arg =>
      v ← of_option IndexError (PyList.getitem (memory st) arg);
      Return (Some (mkVm (memory st) v (pc st) (output st) (console st)))
  | LDA_IMM arg =>
      Return (Some (mkVm (memory st) arg (pc st) (output st) (console st)))
  | STA arg =>
      m ← of_option IndexError (PyList.setitem (memory st) arg (acc st));
      Return (Some (mkVm m (acc st) (pc st) (output st) (console st)))
  | ADD arg =>
      v ← of_option IndexError (PyList.getitem (memory st) arg);
      Return (Some (mkVm (memory st) (Z.land (acc st + v) 0xFF) (pc st) (output st)
                         (console st)))
  | OUT =>
      Return (Some (mkVm (memory st) (acc st) (pc st) (output st ++ [acc st])%list
                         (console st ++ ["OUT = " +:+ PyStr.str_int (acc st)])%list))
  | HLT => Return None
  end.

(** [pc += 1] *)
Definition advance (st : vm) : vm :=
  mkVm (memory st) (acc st) (pc st + 1) (output st) (console st).

(** How the loop ended, with the lines printed until then. *)
Definition ended : Type := result (list Z) * list string.

(** One turn of [while pc < len(code)]: the loop is over ([inl]) or goes
    on from a new state ([inr]). *)
Definition turn (code : list instr) (st : vm) : ended + vm :=
  if pc st <? Z.of_nat (length code) then
    match PyList.getitem code (pc st) with
    | None => inl (Raise IndexError, console st)
    | Some i =>
        match execute i st with
        | Return (Some st') => inr (advance st')
        | Return None => inl (Return (output st), console st)
        | Raise e => inl (Raise e, console st)
        end
    end
  else inl (Return (output st), console st).

(** The loop, with at most [fuel] executions of its body: [None] when
    the loop would go on after them. *)
Fixpoint execute_loop (fuel : nat) (code : list instr) (st : vm) : option ended :=
  match fuel with
  | O =>
      if pc st <? Z.of_nat (length code) then None
      else Some (Return (output st), console st)
  | S fuel' =>
      match turn code st with
      | inl e => Some e
      | inr st' => execute_loop fuel' code st'
      end
  end.

Definition run_fuel (fuel : nat) (assembly : string) : option ended :=
  match parse assembly with
  | Raise e => Some (Raise e, [])
  | Return code => execute_loop fuel code boot
  end.

End sap1_playground.

(** ** The vocabulary of the properties *)

Module Spec.

Import SAP1.
Local Open Scope Z_scope.

Definition byte (x : Z) : Prop := 0 <= x <= 255.

Definition nibble (x : Z) : Prop := 0 <= x <= 15.

(** Every register and every memory cell fits its width: eight bits for
    [A], [B], [OUT], [IR] and the cells, four for [PC] and [MAR]. *)
Definition in_width (s : SAP1) : Prop :=
  byte (A s) /\ byte (B s) /\ byte (OUT s) /\ byte (IR s) /\
  nibble (PC s) /\ nibble (MAR s) /\ Forall byte (memory s).

(** The byte the next fetch puts in [IR], when the cell exists. *)
Definition fetched (s : SAP1) : option Z :=
  u8 <$> PyList.getitem (memory s) (u4 (PC s)).

Definition high_nibble (ir : Z) : Z := Z.land (Z.shiftr ir 4) 0xF.

Definition low_nibble (ir : Z) : Z := Z.land ir 0xF.

(** The opcodes that [step] dispatches on. *)
Definition known_opcode (opcode : Z) : bool :=
  (opcode =? 0x1) || (opcode =? 0x2) || (opcode =? 0x3) || (opcode =? 0x4) ||
  (opcode =? 0xE) || (opcode =? 0xF).

(** The text that the decode failure carries for the byte [ir]. *)
Definition unknown_opcode_text (ir : Z) : string :=
  "Unknown opcode " +:+ PyStr.fmt_X 0 (high_nibble ir) +:+
  " in IR=" +:+ PyStr.fmt_X 2 ir.

(** Two CPUs that differ at most in the two tracing flags. *)
Definition same_machine (s1 s2 : SAP1) : Prop :=
  memory s1 = memory s2 /\ A s1 = A s2 /\ B s1 = B s2 /\ OUT s1 = OUT s2 /\
  IR s1 = IR s2 /\ PC s1 = PC s2 /\ MAR s1 = MAR s2 /\
  halted s1 = halted s2 /\ t_state s1 = t_state s2.

(** Both calls returned, or both raised the same exception. *)
Definition same_ending {X Y : Type} (r1 : result X) (r2 : result Y) : Prop :=
  match r1, r2 with
  | Return _, Return _ => True
  | Raise e1, Raise e2 => e1 = e2
  | _, _ => False
  end.

(** [wp m s Q]: running [m] on [s] ends in an outcome and a state that
    satisfy [Q]. *)
Definition wp {X : Type} (m : M X) (s : SAP1) (Q : result X -> SAP1 -> Prop) : Prop :=
  Q (outcome (m s)) (state_after (m s)).

(** [n] calls of [step] in a row, keeping the state. *)
Fixpoint steps (n : nat) (s : SAP1) : SAP1 :=
  match n with
  | O => s
  | S k => steps k (state_after (step s))
  end.

(** The state in which the demo leaves the CPU it made. *)
Definition cpu_after_demo (code : list Z) : SAP1 :=
  state_after (load_and_run code fresh).

(** The initial locals of [compile_toy]. *)
Definition compiler_start : sap1_playground.compiler :=
  sap1_playground.mkCompiler [] ∅ 0x0E.

(** The number of parsed instructions of an assembly text, [0] when the
    parse raises. *)
Definition instruction_count (assembly : string) : nat :=
  match sap1_playground.parse assembly with
  | Return code => length code
  | Raise _ => 0
  end.


(** A fresh CPU with the byte [b] in cell 0. *)
Definition cpu_with_byte (b : Z) : SAP1 :=
  set_memory (<[0%nat := b]> (memory fresh)) fresh.

(** A fresh CPU with [a] in the accumulator and [cell] in cell 9. *)
Definition cpu_with_A (a cell : Z) : SAP1 :=
  set_A a (set_memory (<[9%nat := cell]> (memory fresh)) fresh).

(** A mnemonic whose operand is resolved by [parse_addr]. *)
Definition takes_operand (mnemonic : string) : bool :=
  String.eqb mnemonic "LDA" || String.eqb mnemonic "ADD" ||
  String.eqb mnemonic "SUB" || String.eqb mnemonic "STA".

(** The program of the demo with each label on a line of its own. *)
Definition demo_asm_label_lines : list string :=
  [ "        LDA a";
    "        ADD b";
    "        STA c";
    "        LDA c";
    "        OUT";
    "        HLT";
    "a:"; "        .byte 5";
    "b:"; "        .byte 7";
    "c:"; "        .byte 0" ].

(** The assembly text that [compile_toy] gives for
    [a=5;b=7;c=a+b;print c;]. *)
Definition toy_assembly : string :=
  PyStr.join sap1_playground.newline
    [ "    LDA #5"; "    STA 14"; "    LDA #7"; "    STA 13";
      "    LDA 14"; "    ADD 13"; "    STA 12"; "    LDA 12";
      "    OUT"; "    HLT" ].

(** A text without [HLT]. *)
Definition toy_without_halt : string :=
  PyStr.join sap1_playground.newline [ "LDA #5"; "OUT"; "OUT" ].

End Spec.

(** ** Further vocabulary *)

Module Facts.

Import SAP1.
Local Open Scope Z_scope.

(** [wpo m s Q]: as [Spec.wp], with the printed lines as well. *)
Definition wpo {X : Type} (m : M X) (s : SAP1)
    (Q : result X -> SAP1 -> list string -> Prop) : Prop :=
  Q (outcome (m s)) (state_after (m s)) (printed (m s)).

(** What a list of [(address, byte)] pairs leaves in cell [a], when one
    of them addresses it: the masked byte of the last such pair. *)
Fixpoint last_write (pairs : list (Z * Z)) (a : Z) : option Z :=
  match pairs with
  | [] => None
  | (addr, b) :: rest =>
      match last_write rest a with
      | Some v => Some v
      | None => if u4 addr =? a then Some (u8 b) else None
      end
  end.

(** The two tracing flags and the number of cells. *)
Definition same_shape (s s' : SAP1) : Prop :=
  trace_instructions s' = trace_instructions s /\
  trace_microsteps s' = trace_microsteps s /\
  length (memory s') = length (memory s).

(** A sixteen-cell program of [LDA 0] instructions. *)
Definition cpu_of_loads : SAP1 := set_memory (replicate 16 0x10) fresh.

(** The three lines that a fetch and a decode print for the byte [ir]
    fetched at [pc]. *)
Definition microstep_lines (pc ir : Z) : list string :=
  [ "T0: MAR <- PC = " +:+ PyStr.fmt_X 1 pc;
    "T1: IR <- M[MAR] = " +:+ PyStr.fmt_X 2 ir +:+ "; PC <- PC+1";
    "T2: Decode -> opcode=" +:+ PyStr.fmt_X 0 (Spec.high_nibble ir) +:+
      ", addr=" +:+ PyStr.fmt_X 0 (Spec.low_nibble ir) ].

(** What a loop of [run] that starts with the lines [trace] gives,
    from what it gives when it starts with none. *)
Definition with_prefix (trace : list string)
    (r : result (list string) * SAP1 * list string) : result (list string) * SAP1 * list string :=
  match r with
  | (Return t, s, out) => (Return (trace ++ t), s, out)
  | (Raise e, s, out) => (Raise e, s, out)
  end.

(** The cleaned lines that emit a byte: those that do not end in a
    colon. *)
Definition emitting (cleaned : list string) : list string :=
  filter (fun line => PyStr.endswith_char ":" line = false) cleaned.

(** What the first pass records: a [.BYTE] with its value, or a mnemonic
    of [OPCODES] with or without an operand. *)
Definition item_ok (item : string * option string) : Prop :=
  (item.1 = ".BYTE" /\ is_Some item.2) \/
  (String.eqb item.1 ".BYTE" = false /\ is_Some (OPCODES !! item.1)).

(** The locals of the first pass fit together: [pc] counts the items,
    every label is bound to a count reached so far, every item is one the
    second pass can encode. *)
Definition layout_ok (st : layout) : Prop :=
  pc st = Z.of_nat (length (items st)) /\
  map_Forall (fun _ a => 0 <= a <= pc st) (labels st) /\
  Forall item_ok (items st).

(** The locals of [compile_toy] fit together: the free pointer is at
    most 14 and every variable has an address above it, up to 14. *)
Definition compiler_ok (st : sap1_playground.compiler) : Prop :=
  sap1_playground.mem_ptr st <= 14 /\
  map_Forall (fun _ a => sap1_playground.mem_ptr st < a <= 14)
             (sap1_playground.variables st).

End Facts.

(** ** Tests of the built-ins *)

Example strip_ex : PyStr.strip "  a:   .byte 5 " = "a:   .byte 5".
Proof. reflexivity. Qed.

Example split_ex : PyStr.split ";" "a;b;" = ["a"; "b"; EmptyString].
Proof. reflexivity. Qed.

Example split_max_ex : PyStr.split_max ";" 1 "a;b;c" = ["a"; "b;c"].
Proof. reflexivity. Qed.

Example split_ws_ex : PyStr.split_ws "  LDA   a " = ["LDA"; "a"].
Proof. reflexivity. Qed.

Example literal_ex :
  PyStr.literal true "0x_1f" = Some 31%Z /\ PyStr.literal true "01" = None /\
  PyStr.literal true "0_0" = Some 0%Z /\ PyStr.literal false "0_7" = Some 7%Z /\
  PyStr.literal true "-0x1F" = Some (-31)%Z /\ PyStr.literal true "5_" = None /\
  PyStr.literal true "0x" = None /\ PyStr.literal false "+5" = Some 5%Z /\
  PyStr.literal true "#5" = None /\ PyStr.literal true "foo" = None.
Proof. repeat split; reflexivity. Qed.

Example fmt_X_ex :
  PyStr.fmt_X 2 (-1) = "-1" /\ PyStr.fmt_X 3 (-1) = "-01" /\ PyStr.fmt_X 1 255 = "FF" /\
  PyStr.fmt_X 2 0 = "00" /\ PyStr.fmt_X 0 (-300) = "-12C" /\ PyStr.fmt_X 0 10 = "A".
Proof. repeat split; reflexivity. Qed.

Example str_int_ex : PyStr.str_int (-12) = "-12" /\ PyStr.str_int 0 = "0" /\ PyStr.str_int 14 = "14".
Proof. repeat split; reflexivity. Qed.

Example getitem_ex :
  PyList.getitem [10; 20; 30]%Z (-1) = Some 30%Z /\ PyList.getitem [10; 20; 30]%Z 3 = None /\
  PyList.getitem [10; 20; 30]%Z (-4) = None /\ PyList.setitem [10; 20; 30]%Z (-3) 7%Z = Some [7; 20; 30]%Z.
Proof. repeat split; reflexivity. Qed.

Example splitlines_ex :
  PyStr.splitlines (PyStr.join (String (PyStr.chr 13) (String (PyStr.chr 10) EmptyString))
                      ["a"; "b"; EmptyString; "c"]) = ["a"; "b"; EmptyString; "c"] /\
  PyStr.splitlines EmptyString = [] /\
  PyStr.splitlines (String (PyStr.chr 10) EmptyString) = [EmptyString] /\
  PyStr.splitlines (String "a" (String (PyStr.chr 10) EmptyString)) = ["a"].
Proof. repeat split; reflexivity. Qed.

Example upper_ex : PyStr.upper ".byte" = ".BYTE" /\ PyStr.upper "a:" = "A:".
Proof. split; reflexivity. Qed.

Example isdigit_ex :
  PyStr.isdigit "57" = true /\ PyStr.isdigit "-5" = false /\ PyStr.isdigit EmptyString = false.
Proof. repeat split; reflexivity. Qed.

Example endswith_ex :
  PyStr.endswith_char ":" "a:" = true /\ PyStr.endswith_char ":" "a:      .byte 5" = false /\
  PyStr.drop_last "a :" = "a ".
Proof. repeat split; reflexivity. Qed.

(** ** Masks *)

Section Masks.
Import SAP1 Spec.
Local Open Scope Z_scope.

Lemma u8_mod x : u8 x = x mod 256.
Proof. unfold u8. change 0xFF with (Z.ones 8). rewrite Z.land_ones by lia. reflexivity. Qed.

Lemma u4_mod x : u4 x = x mod 16.
Proof. unfold u4. change 0xF with (Z.ones 4). rewrite Z.land_ones by lia. reflexivity. Qed.

Lemma u8_byte x : byte (u8 x).
Proof. rewrite u8_mod. unfold byte. pose proof (Z.mod_pos_bound x 256). lia. Qed.

Lemma u4_nibble x : nibble (u4 x).
Proof. rewrite u4_mod. unfold nibble. pose proof (Z.mod_pos_bound x 16). lia. Qed.

Lemma setitem_Forall (P : Z -> Prop) l i v m :
  PyList.setitem l i v = Some m -> Forall P l -> P v -> Forall P m.
Proof.
  unfold PyList.setitem. destruct (PyList.index _ _) as [n|]; simpl; [|discriminate].
  intros [= <-] Hl Hv. by apply Forall_insert.
Qed.

End Masks.

(** ** Symbolic execution of the methods *)

Section Wp.
Import SAP1 Spec.
Context {X Y : Type}.

Lemma wp_bind (m : M X) (f : X -> M Y) s Q :
  wp m s (fun r s' => match r with
                      | Return x => wp (f x) s' Q
                      | Raise e => Q (Raise e) s'
                      end) ->
  wp (m ≫= f) s Q.
Proof.
  unfold wp, outcome, state_after, mbind, M_bind.
  destruct (m s) as [[[x|e] s'] out]; simpl; [|tauto].
  destruct (f x s') as [[r s''] out']; simpl. tauto.
Qed.

Lemma wp_ret (x : X) s (Q : result X -> SAP1 -> Prop) : Q (Return x) s -> wp (mret x) s Q.
Proof. exact id. Qed.

Lemma wp_get (field : SAP1 -> X) s (Q : result X -> SAP1 -> Prop) :
  Q (Return (field s)) s -> wp (get field) s Q.
Proof. exact id. Qed.

Lemma wp_raise e s (Q : result X -> SAP1 -> Prop) : Q (Raise e) s -> wp (raise e) s Q.
Proof. exact id. Qed.

End Wp.

Section WpUnit.
Import SAP1 Spec.

Lemma wp_assign (upd : SAP1 -> SAP1) s (Q : result unit -> SAP1 -> Prop) :
  Q (Return tt) (upd s) -> wp (assign upd) s Q.
Proof. exact id. Qed.

Lemma wp_print line s (Q : result unit -> SAP1 -> Prop) :
  Q (Return tt) s -> wp (print line) s Q.
Proof. exact id. Qed.

Lemma wp_when (b : bool) m s (Q : result unit -> SAP1 -> Prop) :
  (if b then wp m s Q else Q (Return tt) s) -> wp (when b m) s Q.
Proof. destruct b; exact id. Qed.

Lemma wp_mem_get i s (Q : result Z -> SAP1 -> Prop) :
  match PyList.getitem (memory s) i with
  | Some v => Q (Return v) s
  | None => Q (Raise IndexError) s
  end -> wp (mem_get i) s Q.
Proof. unfold wp, mem_get. destruct (PyList.getitem _ _); exact id. Qed.

Lemma wp_mem_set i v s (Q : result unit -> SAP1 -> Prop) :
  match PyList.setitem (memory s) i v with
  | Some m => Q (Return tt) (set_memory m s)
  | None => Q (Raise IndexError) s
  end -> wp (mem_set i v) s Q.
Proof. unfold wp, mem_set. destruct (PyList.setitem _ _ _); exact id. Qed.

End WpUnit.

(** One rule of the calculus, chosen by the head of the program. *)
Ltac wp_rule :=
  lazymatch goal with
  | |- Spec.wp (mbind _ _) _ _ => apply wp_bind
  | |- Spec.wp (mret _) _ _ => apply wp_ret
  | |- Spec.wp (SAP1.get _) _ _ => apply wp_get
  | |- Spec.wp (SAP1.raise _) _ _ => apply wp_raise
  | |- Spec.wp (SAP1.assign _) _ _ => apply wp_assign
  | |- Spec.wp (SAP1.print _) _ _ => apply wp_print
  | |- Spec.wp (SAP1.when _ _) _ _ => apply wp_when
  | |- Spec.wp (SAP1.mem_get _) _ _ => apply wp_mem_get
  | |- Spec.wp (SAP1.mem_set _ _) _ _ => apply wp_mem_set
  end.

(** A test that the program branches on: reuse what is known about it,
    or split. *)
Ltac wp_branch :=
  match goal with
  | H : ?b = _ |- Spec.wp (if ?b then _ else _) _ _ => rewrite H
  | H : ?b = _ |- (if ?b then _ else _) => rewrite H
  | H : ?o = _ |- match ?o with Some _ => _ | None => _ end => rewrite H
  | |- Spec.wp (if ?b then _ else _) _ _ => destruct b eqn:?
  | |- (if ?b then _ else _) => destruct b eqn:?
  | |- match ?o with Some _ => _ | None => _ end => destruct o eqn:?
  end.

Ltac wp_methods :=
  progress unfold SAP1.step, SAP1.execute, SAP1._fetch_cycle, SAP1._decode,
    SAP1._exec_LDA, SAP1._exec_ADD, SAP1._exec_SUB, SAP1._exec_STA,
    SAP1._exec_OUT, SAP1._exec_HLT, SAP1.reset.

Ltac wp_fields :=
  progress cbn [SAP1.memory SAP1.A SAP1.B SAP1.OUT SAP1.IR SAP1.PC SAP1.MAR
                SAP1.halted SAP1.t_state SAP1.trace_instructions SAP1.trace_microsteps
                SAP1.set_memory SAP1.set_A SAP1.set_B SAP1.set_OUT SAP1.set_IR
                SAP1.set_PC SAP1.set_MAR SAP1.set_halted SAP1.set_t_state id].

Ltac wp_run := repeat first [ wp_rule | wp_fields | wp_branch | wp_methods ].

(** Reading a result of the calculus back as a fact about the call. *)
Lemma wp_elim {X : Type} (m : SAP1.M X) s (Q : result X -> SAP1.SAP1 -> Prop) :
  Spec.wp m s Q -> Q (SAP1.outcome (m s)) (SAP1.state_after (m s)).
Proof. exact id. Qed.

(** ** The width invariant *)

Section Width.
Import SAP1 Spec.
Local Open Scope Z_scope.

Lemma load_program_in_width pairs s :
  in_width s -> in_width (state_after (load_program pairs s)).
Proof.
  revert s. induction pairs as [|[addr b] rest IH]; intros s Hs; [exact Hs|].
  change (wp (mem_set (u4 addr) (u8 b) ≫= (fun _ => load_program rest)) s
             (fun _ s' => in_width s')).
  apply wp_bind, wp_mem_set.
  destruct (PyList.setitem _ _ _) as [m|] eqn:Hm; [|exact Hs].
  apply IH. destruct s; unfold in_width in *; cbn in *.
  intuition eauto using setitem_Forall, u8_byte.
Qed.

Lemma reset_in_width s : in_width s -> in_width (state_after (reset s)).
Proof.
  intros Hs. apply (wp_elim reset s (fun _ s' => in_width s')).
  destruct s. unfold in_width in *. wp_run. cbn in *. unfold byte, nibble. intuition lia.
Qed.

Lemma step_in_width s : in_width s -> in_width (state_after (step s)).
Proof.
  intros Hs. apply (wp_elim step s (fun _ s' => in_width s')).
  destruct s. unfold in_width in *. cbn in Hs.
  wp_run; cbn; intuition eauto using setitem_Forall, u8_byte, u4_nibble.
Qed.

(** *** Sixteen cells: no index error

    On a memory of sixteen cells a masked address always finds its cell,
    so [load_program] returns, and [step] returns or raises the decode
    failure. *)

Lemma index_u4 i : PyList.index 16 (u4 i) = Some (Z.to_nat (u4 i)).
Proof.
  pose proof (u4_nibble i) as Hn. unfold nibble in Hn. unfold PyList.index.
  destruct (0 <=? u4 i) eqn:H0; [|apply Z.leb_gt in H0; lia].
  destruct (u4 i <? Z.of_nat 16) eqn:H1; [reflexivity|apply Z.ltb_ge in H1; lia].
Qed.

Lemma getitem_u4 (l : list Z) i :
  length l = 16%nat -> exists v, PyList.getitem l (u4 i) = Some v.
Proof.
  intros Hl. unfold PyList.getitem. rewrite Hl, index_u4. cbn.
  apply lookup_lt_is_Some_2. pose proof (u4_nibble i) as Hn. unfold nibble in Hn. lia.
Qed.

Lemma setitem_u4 (l : list Z) i v :
  length l = 16%nat ->
  exists m, PyList.setitem l (u4 i) v = Some m /\ length m = 16%nat.
Proof.
  intros Hl. unfold PyList.setitem. rewrite Hl, index_u4. cbn.
  eexists. split; [reflexivity|]. by rewrite length_insert.
Qed.

Lemma load_program_returns pairs s :
  length (memory s) = 16%nat ->
  outcome (load_program pairs s) = Return tt /\
  length (memory (state_after (load_program pairs s))) = 16%nat.
Proof.
  revert s. induction pairs as [|[addr b] rest IH]; intros s Hl; [by split|].
  change (wp (mem_set (u4 addr) (u8 b) ≫= (fun _ => load_program rest)) s
             (fun r s' => r = Return tt /\ length (memory s') = 16%nat)).
  apply wp_bind, wp_mem_set.
  destruct (setitem_u4 (memory s) addr (u8 b) Hl) as (m & -> & Hm).
  apply IH. by destruct s.
Qed.

Lemma step_returns_or_decode_failure s :
  length (memory s) = 16%nat ->
  (exists msg, outcome (step s) = Return msg) \/
  (exists why, outcome (step s) = Raise (ValueError why)).
Proof.
  intros Hl.
  apply (wp_elim step s (fun r _ =>
           (exists msg, r = Return msg) \/ (exists why, r = Raise (ValueError why)))).
  destruct s as [m a b o ir pc mar h t ti tm]. cbn in Hl.
  wp_run; eauto;
    repeat match goal with
           | H : PyList.getitem m (u4 ?i) = None |- _ =>
               destruct (getitem_u4 m i Hl) as [? ?]; congruence
           | H : PyList.setitem m (u4 ?i) ?v = None |- _ =>
               destruct (setitem_u4 m i v Hl) as (? & ? & ?); congruence
           end.
Qed.

End Width.

(** C2. From a state in which [A], [B], [OUT], [IR] and every memory
    cell are in [0, 255] and [PC], [MAR] are in [0, 15], each of
    [reset()], [load_program(pairs)] and [step()] leaves a state within
    the same bounds, whether the call returned or raised. *)
Theorem width_invariant (s : SAP1.SAP1) (pairs : list (Z * Z)) :
  Spec.in_width s ->
  Spec.in_width (SAP1.state_after (SAP1.reset s)) /\
  Spec.in_width (SAP1.state_after (SAP1.load_program pairs s)) /\
  Spec.in_width (SAP1.state_after (SAP1.step s)).
Proof.
  intros Hs. split; [|split].
  - by apply reset_in_width.
  - by apply load_program_in_width.
  - by apply step_in_width.
Qed.

Lemma fresh_in_width : Spec.in_width SAP1.fresh.
Proof.
  unfold Spec.in_width, Spec.byte, Spec.nibble. cbn.
  repeat split; try lia. repeat constructor; lia.
Qed.

Lemma width_invariant_witness :
  Spec.in_width SAP1.fresh /\
  Spec.in_width (SAP1.state_after (SAP1.reset SAP1.fresh)) /\
  Spec.in_width (SAP1.state_after (SAP1.load_program [(16, 511); (3, -1)]%Z SAP1.fresh)) /\
  Spec.in_width (SAP1.state_after (SAP1.step SAP1.fresh)).
Proof.
  split; [exact fresh_in_width|].
  exact (width_invariant SAP1.fresh [(16, 511); (3, -1)]%Z fresh_in_width).
Defined.

(** ** Decoding *)

Section Decode.
Import SAP1 Spec.
Local Open Scope Z_scope.

Ltac use_tests :=
  repeat match goal with
         | H : ?t = _ |- context [?t] => rewrite H
         end.

(** C3. A [step()] of a CPU that is not halted raises the decode
    failure (a [ValueError]) exactly when the fetched byte has a high
    nibble outside 0x1, 0x2, 0x3, 0x4, 0xE, 0xF.  The failure carries the
    text with that nibble and the whole [IR] byte, and [A], [B] and [OUT]
    are what they were before the call. *)
Theorem unknown_opcode_raises (s : SAP1) :
  halted s = false ->
  ((exists why, outcome (step s) = Raise (ValueError why)) <->
   (exists ir, fetched s = Some ir /\ known_opcode (high_nibble ir) = false)) /\
  (forall why, outcome (step s) = Raise (ValueError why) ->
     why = Message (unknown_opcode_text (IR (state_after (step s)))) /\
     fetched s = Some (IR (state_after (step s))) /\
     A (state_after (step s)) = A s /\
     B (state_after (step s)) = B s /\
     OUT (state_after (step s)) = OUT s).
Proof.
  intros Hh.
  apply (wp_elim step s (fun r s' =>
    ((exists why, r = Raise (ValueError why)) <->
     (exists ir, fetched s = Some ir /\ known_opcode (high_nibble ir) = false)) /\
    (forall why, r = Raise (ValueError why) ->
       why = Message (unknown_opcode_text (IR s')) /\ fetched s = Some (IR s') /\
       A s' = A s /\ B s' = B s /\ OUT s' = OUT s))).
  destruct s as [m a b o ir pc mar h t ti tm]. cbn in Hh. subst h.
  unfold fetched, known_opcode, high_nibble, unknown_opcode_text.
  wp_run; cbn [memory A B OUT IR PC]; use_tests; cbn [fmap option_fmap option_map orb].
  all: split;
    [ split;
      [ intros [why Hw];
        first [ discriminate Hw
              | eexists; split; [reflexivity|]; use_tests; reflexivity ]
      | intros (ir' & Hf & Hk);
        first [ discriminate Hf
              | injection Hf as <-;
                first [ exfalso; revert Hk; use_tests; cbn [orb]; discriminate | eauto ] ] ]
    | intros why Hw; first [discriminate Hw | inversion Hw; auto] ].
Qed.

End Decode.


Lemma unknown_opcode_raises_witness :
  SAP1.halted (Spec.cpu_with_byte 0x5F) = false /\
  SAP1.outcome (SAP1.step (Spec.cpu_with_byte 0x5F)) =
    Raise (ValueError (Message "Unknown opcode 5 in IR=5F")) /\
  SAP1.A (SAP1.state_after (SAP1.step (Spec.cpu_with_byte 0x5F))) = 0%Z /\
  SAP1.B (SAP1.state_after (SAP1.step (Spec.cpu_with_byte 0x5F))) = 0%Z /\
  SAP1.OUT (SAP1.state_after (SAP1.step (Spec.cpu_with_byte 0x5F))) = 0%Z.
Proof.
  split; [reflexivity|].
  destruct (unknown_opcode_raises (Spec.cpu_with_byte 0x5F) eq_refl) as [_ H].
  destruct (H (Message "Unknown opcode 5 in IR=5F") eq_refl) as (_ & _ & Ha & Hb & Ho).
  split; [reflexivity|]. exact (conj Ha (conj Hb Ho)).
Defined.

(** ** Halting *)

Section Halt.
Import SAP1 Spec.
Local Open Scope Z_scope.

Lemma step_halted s : halted s = true -> step s = (Return None, s, []).
Proof.
  intros Hh. unfold step, mbind, M_bind, get. rewrite Hh. reflexivity.
Qed.

Lemma steps_halted n s : halted s = true -> steps n s = s.
Proof.
  intros Hh. induction n as [|n IH]; [reflexivity|].
  cbn [steps]. rewrite step_halted by exact Hh. exact IH.
Qed.

Lemma run_loop_halted fuel trace s :
  halted s = true -> run_loop fuel trace s = (Return trace, s, []).
Proof.
  intros Hh. destruct fuel as [|fuel]; [reflexivity|].
  cbn [run_loop]. unfold mbind, M_bind, get. rewrite Hh. reflexivity.
Qed.

Lemma load_program_halted pairs s :
  halted (state_after (load_program pairs s)) = halted s.
Proof.
  revert s. induction pairs as [|[addr b] rest IH]; intros s; [reflexivity|].
  change (wp (mem_set (u4 addr) (u8 b) ≫= (fun _ => load_program rest)) s
             (fun _ s' => halted s' = halted s)).
  apply wp_bind, wp_mem_set.
  destruct (PyList.setitem _ _ _) as [m|]; [|reflexivity].
  unfold wp. rewrite IH. reflexivity.
Qed.

Lemma step_executes_HLT s ir :
  halted s = false -> fetched s = Some ir -> high_nibble ir = 0xF ->
  (exists msg, outcome (step s) = Return msg) /\ halted (state_after (step s)) = true.
Proof.
  intros Hh Hf Hn.
  apply (wp_elim step s (fun r s' => (exists msg, r = Return msg) /\ halted s' = true)).
  destruct s as [m a b o ir0 pc mar h t ti tm]. cbn in Hh. subst h.
  unfold fetched, high_nibble in *. cbn [memory PC] in Hf.
  destruct (PyList.getitem m (u4 pc)) as [z|] eqn:Hz; [|discriminate].
  injection Hf as <-.
  wp_run; eauto;
    repeat match goal with
           | H : (_ =? _) = true |- _ => apply Z.eqb_eq in H
           | H : (_ =? _) = false |- _ => apply Z.eqb_neq in H
           end; congruence.
Qed.

(** C5. Executing an instruction whose opcode is 0xF returns normally
    with [halted] set.  On a halted CPU [step()] returns [None], prints
    nothing and leaves every field as it was, however often it is called;
    [load_program] and [run] leave [halted] set as well, and [reset()]
    clears it. *)
Theorem halt_is_terminal (s h : SAP1) (ir : Z) (n : nat)
    (pairs : list (Z * Z)) (max_steps : Z) :
  halted s = false -> fetched s = Some ir -> high_nibble ir = 0xF ->
  halted h = true ->
  ((exists msg, outcome (step s) = Return msg) /\ halted (state_after (step s)) = true) /\
  step h = (Return None, h, []) /\
  steps n h = h /\
  halted (state_after (load_program pairs h)) = true /\
  run max_steps h = (Return [], h, []) /\
  halted (state_after (reset h)) = false.
Proof.
  intros Hs Hf Hn Hh. split; [|split; [|split; [|split; [|split]]]].
  - eapply step_executes_HLT; eauto.
  - by apply step_halted.
  - by apply steps_halted.
  - by rewrite load_program_halted.
  - by apply run_loop_halted.
  - by destruct h.
Qed.

End Halt.

Lemma halt_is_terminal_witness :
  let s := Spec.cpu_with_byte 0xF0 in
  let h := SAP1.state_after (SAP1.step s) in
  SAP1.halted s = false /\ SAP1.halted h = true /\
  SAP1.step h = (Return None, h, []) /\
  Spec.steps 3 h = h /\
  SAP1.halted (SAP1.state_after (SAP1.load_program [(0, 0)]%Z h)) = true /\
  SAP1.run 1000 h = (Return [], h, []) /\
  SAP1.halted (SAP1.state_after (SAP1.reset h)) = false.
Proof.
  intros s h.
  pose proof (halt_is_terminal s h 0xF0 3 [(0, 0)]%Z 1000
                eq_refl eq_refl eq_refl eq_refl) as (_ & H).
  split; [reflexivity|]. split; [reflexivity|]. exact H.
Defined.

(** ** Arithmetic *)

Section Arith.
Import SAP1 Spec.
Local Open Scope Z_scope.

(** C6. When the addressed cell exists and holds [v], [_exec_ADD(addr)]
    returns normally with [A = (A + v) mod 256] and [_exec_SUB(addr)]
    with [A = (A - v) mod 256]; the cell is the one at [addr mod 16].
    Nothing is assumed on the size of the operands, so neither overflow
    nor underflow raises. *)
Theorem add_sub_wrap (s : SAP1) (addr v : Z) :
  PyList.getitem (memory s) (addr mod 16) = Some v ->
  (outcome (_exec_ADD addr s) = Return tt /\
   A (state_after (_exec_ADD addr s)) = (A s + v) mod 256) /\
  (outcome (_exec_SUB addr s) = Return tt /\
   A (state_after (_exec_SUB addr s)) = (A s - v) mod 256).
Proof.
  intros Hv. rewrite <- u4_mod in Hv. split.
  - apply (wp_elim (_exec_ADD addr) s
             (fun r s' => r = Return tt /\ A s' = (A s + v) mod 256)).
    destruct s. cbn [memory] in Hv. wp_run.
    split; [reflexivity|]. rewrite !u8_mod. apply Z.add_mod_idemp_r. lia.
  - apply (wp_elim (_exec_SUB addr) s
             (fun r s' => r = Return tt /\ A s' = (A s - v) mod 256)).
    destruct s. cbn [memory] in Hv. wp_run.
    split; [reflexivity|]. rewrite !u8_mod. apply Zminus_mod_idemp_r.
Qed.

(** The same through [step]: a fetched byte with high nibble 0x2 or 0x3
    adds or subtracts the cell that its low nibble addresses. *)
Lemma step_add_sub_wrap (s : SAP1) (ir v : Z) :
  halted s = false -> fetched s = Some ir ->
  PyList.getitem (memory s) (low_nibble ir mod 16) = Some v ->
  (high_nibble ir = 0x2 -> A (state_after (step s)) = (A s + v) mod 256) /\
  (high_nibble ir = 0x3 -> A (state_after (step s)) = (A s - v) mod 256).
Proof.
  intros Hh Hf Hv. rewrite <- u4_mod in Hv.
  apply (wp_elim step s (fun _ s' =>
           (high_nibble ir = 0x2 -> A s' = (A s + v) mod 256) /\
           (high_nibble ir = 0x3 -> A s' = (A s - v) mod 256))).
  destruct s as [m a b o ir0 pc mar h t ti tm]. cbn in Hh. subst h.
  unfold fetched, high_nibble, low_nibble in *. cbn [memory PC] in Hf, Hv.
  destruct (PyList.getitem m (u4 pc)) as [z|] eqn:Hz; [|discriminate].
  injection Hf as <-.
  wp_run;
    repeat match goal with
           | H : (_ =? _) = true |- _ => apply Z.eqb_eq in H
           | H : (_ =? _) = false |- _ => apply Z.eqb_neq in H
           end;
    (split; intros Hop; try congruence); rewrite !u8_mod;
    first [ apply Z.add_mod_idemp_r; lia | apply Zminus_mod_idemp_r ].
Qed.

End Arith.


Lemma add_sub_wrap_witness :
  SAP1.A (SAP1.state_after (SAP1._exec_ADD 9 (Spec.cpu_with_A 250 10))) = 4%Z /\
  SAP1.A (SAP1.state_after (SAP1._exec_SUB 9 (Spec.cpu_with_A 3 5))) = 254%Z.
Proof.
  split.
  - exact (proj2 (proj1 (add_sub_wrap (Spec.cpu_with_A 250 10) 9 10 eq_refl))).
  - exact (proj2 (proj2 (add_sub_wrap (Spec.cpu_with_A 3 5) 9 5 eq_refl))).
Defined.

(** The same through [step]: the instruction bytes 0x2n and 0x3n. *)
Example step_ADD_wraps :
  let s := SAP1.set_A 250 (SAP1.set_memory [0x29; 0; 0; 0; 0; 0; 0; 0; 0; 10; 0; 0; 0; 0; 0; 0]%Z
                                           SAP1.fresh) in
  SAP1.A (SAP1.state_after (SAP1.step s)) = 4%Z.
Proof. reflexivity. Qed.

Example step_SUB_wraps :
  let s := SAP1.set_A 3 (SAP1.set_memory [0x39; 0; 0; 0; 0; 0; 0; 0; 0; 5; 0; 0; 0; 0; 0; 0]%Z
                                         SAP1.fresh) in
  SAP1.A (SAP1.state_after (SAP1.step s)) = 254%Z.
Proof. reflexivity. Qed.

(** ** Tracing *)

Section Tracing.
Import SAP1 Spec.
Local Open Scope Z_scope.

(** C9. Two CPUs that agree on memory, the six registers, [halted] and
    [t_state] agree on them again after [step()], whatever their tracing
    flags are; and they end the same way, both returning or both raising
    the same exception. *)
Theorem tracing_flags_do_not_interfere (s1 s2 : SAP1) :
  same_machine s1 s2 ->
  same_machine (state_after (step s1)) (state_after (step s2)) /\
  same_ending (outcome (step s1)) (outcome (step s2)).
Proof.
  intros Hs.
  apply (wp_elim step s1 (fun r1 s1' =>
           same_machine s1' (state_after (step s2)) /\ same_ending r1 (outcome (step s2)))).
  destruct s1 as [m a b o ir pc mar h t ti1 tm1], s2 as [m2 a2 b2 o2 ir2 pc2 mar2 h2 t2 ti2 tm2].
  unfold same_machine in Hs. cbn in Hs.
  destruct Hs as (<- & <- & <- & <- & <- & <- & <- & <- & <-).
  wp_run;
    match goal with
    | |- _ /\ same_ending ?r _ =>
        apply (wp_elim step _ (fun r2 s2' => same_machine _ s2' /\ same_ending r r2))
    end;
    wp_run; try discriminate; unfold same_machine; cbn; repeat split; congruence.
Qed.

End Tracing.

Lemma tracing_flags_do_not_interfere_witness :
  let quiet := SAP1.mkSAP1 [0x1F; 0; 0; 0; 0; 0; 0; 0; 0; 0; 0; 0; 0; 0; 0; 7]%Z
                 0 0 0 0 0 0 false 0 false false in
  let loud := SAP1.mkSAP1 [0x1F; 0; 0; 0; 0; 0; 0; 0; 0; 0; 0; 0; 0; 0; 0; 7]%Z
                 0 0 0 0 0 0 false 0 true true in
  Spec.same_machine quiet loud /\
  Spec.same_machine (SAP1.state_after (SAP1.step quiet)) (SAP1.state_after (SAP1.step loud)) /\
  SAP1.printed (SAP1.step quiet) <> SAP1.printed (SAP1.step loud).
Proof.
  intros quiet loud.
  assert (Hs : Spec.same_machine quiet loud) by (repeat split).
  split; [exact Hs|]. split.
  - exact (proj1 (tracing_flags_do_not_interfere quiet loud Hs)).
  - discriminate.
Defined.

(** ** The assembler *)

Section Assembler.
Import SAP1 Spec.
Local Open Scope Z_scope.

Lemma encode_items_app labels out pre post :
  encode_items labels out (pre ++ post) =
  out' ← encode_items labels out pre; encode_items labels out' post.
Proof.
  revert out. induction pre as [|item pre IH]; intros out; [reflexivity|].
  cbn [app encode_items]. destruct (encode_item labels item) as [byte|e]; [|reflexivity].
  apply IH.
Qed.

(** The second pass raises what [int()] and the dictionaries raise, never
    the assembler's own [AsmError]. *)
Lemma encode_item_not_AsmError labels item msg :
  encode_item labels item <> Raise (AsmError msg).
Proof.
  destruct item as [mnemonic opnd].
  unfold encode_item, parse_addr, py_int, of_option, mbind, result_bind.
  repeat case_match; simplify_eq; discriminate.
Qed.

Lemma encode_items_not_AsmError labels out items msg :
  encode_items labels out items <> Raise (AsmError msg).
Proof.
  revert out. induction items as [|item items IH]; intros out; [discriminate|].
  cbn [encode_items]. destruct (encode_item labels item) as [byte|e] eqn:He.
  - apply IH.
  - cbn. intros [= ->]. by apply encode_item_not_AsmError in He.
Qed.


Lemma encode_bad_operand labels mnemonic tok :
  Spec.takes_operand mnemonic = true ->
  labels !! tok = None -> PyStr.literal true tok = None ->
  encode_item labels (mnemonic, Some tok) = Raise (ValueError (InvalidLiteral 0 tok)).
Proof.
  intros Hm Hl Ht. unfold Spec.takes_operand in Hm.
  unfold encode_item, parse_addr, py_int. rewrite Hl, Ht.
  repeat match type of Hm with
         | _ || _ = true => apply orb_true_iff in Hm as [Hm|Hm]
         end; apply String.eqb_eq in Hm; subst mnemonic; reflexivity.
Qed.

End Assembler.

(** C1. The demo's nine lines do not assemble: a line that carries a
    label and a directive together ([a: .byte 5]) does not end in a colon,
    so its first token [a:] is looked up as a mnemonic, and [assemble]
    raises [AsmError] before any CPU is made. *)
Theorem demo_program_sta_raises :
  SAP1.assemble SAP1.demo_asm = Raise (AsmError "Unknown directive or mnemonic: A:") /\
  SAP1.demo_program_sta = Raise (AsmError "Unknown directive or mnemonic: A:").
Proof. split; vm_compute; reflexivity. Qed.


(** With the labels on their own lines the program assembles, and the
    CPU halts with 12 in [OUT]. *)
Lemma demo_with_label_lines :
  SAP1.assemble Spec.demo_asm_label_lines =
    Return [0x16; 0x27; 0x48; 0x18; 0xE0; 0xF0; 5; 7; 0]%Z /\
  SAP1.demo_on Spec.demo_asm_label_lines =
    Return [ "PC=1 IR=16 A=05 B=00 OUT=00 :: LDA 6";
             "PC=2 IR=27 A=0C B=07 OUT=00 :: ADD 7";
             "PC=3 IR=48 A=0C B=07 OUT=00 :: STA 8";
             "PC=4 IR=18 A=0C B=07 OUT=00 :: LDA 8";
             "PC=5 IR=E0 A=0C B=07 OUT=0C :: OUT (A=0C)";
             "PC=6 IR=F0 A=0C B=07 OUT=0C :: HLT";
             "FINAL: A=0C OUT=0C halted=True" ] /\
  SAP1.OUT (Spec.cpu_after_demo [0x16; 0x27; 0x48; 0x18; 0xE0; 0xF0; 5; 7; 0]%Z) = 12%Z /\
  SAP1.halted (Spec.cpu_after_demo [0x16; 0x27; 0x48; 0x18; 0xE0; 0xF0; 5; 7; 0]%Z) = true.
Proof. repeat split; vm_compute; reflexivity. Qed.

(** C7. When the first pass succeeds and the second pass reaches a
    mnemonic that takes an operand, with a token that is neither a label
    nor an integer literal, [assemble] raises the [ValueError] of [int()];
    the second pass never raises [AsmError]. *)
Theorem bad_operand_raises_ValueError (lines : list string) (st : SAP1.layout)
    (before after : list (string * option string)) (mnemonic tok : string)
    (bytes : list Z) :
  SAP1.layout_lines (SAP1.cleaned_lines lines) (SAP1.mkLayout ∅ 0 []) = Return st ->
  SAP1.items st = before ++ (mnemonic, Some tok) :: after ->
  SAP1.encode_items (SAP1.labels st) [] before = Return bytes ->
  Spec.takes_operand mnemonic = true ->
  SAP1.labels st !! tok = None ->
  PyStr.literal true tok = None ->
  SAP1.assemble lines = Raise (ValueError (InvalidLiteral 0 tok)) /\
  forall msg, SAP1.assemble lines <> Raise (AsmError msg).
Proof.
  intros Hlay Hitems Hbefore Hm Hl Ht.
  assert (H : SAP1.assemble lines = Raise (ValueError (InvalidLiteral 0 tok))).
  { unfold SAP1.assemble. rewrite Hlay. cbn [mbind result_bind].
    rewrite Hitems, encode_items_app, Hbefore. cbn [mbind result_bind SAP1.encode_items].
    by rewrite encode_bad_operand. }
  split; [exact H|]. intros msg. rewrite H. discriminate.
Qed.

Lemma bad_operand_raises_ValueError_witness :
  SAP1.assemble ["LDA foo"] = Raise (ValueError (InvalidLiteral 0 "foo")) /\
  forall msg, SAP1.assemble ["LDA foo"] <> Raise (AsmError msg).
Proof.
  refine (bad_operand_raises_ValueError ["LDA foo"]
            (SAP1.mkLayout ∅ 1 [("LDA", Some "foo")])
            [] [] "LDA" "foo" [] _ _ _ _ _ _); vm_compute; reflexivity.
Defined.

(** The immediate operand that the toy compiler writes, and an unknown
    name after a label and a good line. *)
Example bad_operand_examples :
  SAP1.assemble ["    LDA #5"] = Raise (ValueError (InvalidLiteral 0 "#5")) /\
  SAP1.assemble ["start:"; "  LDA 3"; "  ADD foo ; no such label"] =
    Raise (ValueError (InvalidLiteral 0 "foo")) /\
  SAP1.assemble ["  BRA 3"] = Raise (AsmError "Unknown directive or mnemonic: BRA").
Proof. repeat split; vm_compute; reflexivity. Qed.

(** ** The toy compiler *)

Section Compiler.
Import sap1_playground Spec.
Local Open Scope Z_scope.

Lemma compile_lines_app before after st :
  compile_lines (before ++ after) st =
  st' ← compile_lines before st; compile_lines after st'.
Proof.
  revert st. induction before as [|line before IH]; intros st; [reflexivity|].
  cbn [app compile_lines]. destruct (compile_line line st) as [st'|e]; [|reflexivity].
  apply IH.
Qed.

Lemma compile_print_unassigned line var st :
  PyStr.startswith "print" line = true ->
  PyStr.split_ws line !! 1%nat = Some var ->
  variables st !! var = None ->
  compile_line line st = Raise (KeyError var).
Proof.
  intros Hp Hv Hn. unfold compile_line, variable. rewrite Hp, Hv. cbn. rewrite Hn. reflexivity.
Qed.

(** On ASCII text: when the statements before a [print] statement
    compile without raising and leave its variable out of the symbol
    table, [compile_toy] raises the [KeyError] of the table lookup, which
    carries the name of that variable. *)
Lemma print_of_unassigned_variable (source : string) (before after : list string)
    (line var : string) (st : compiler) :
  PyStr.isascii source = true ->
  statements source = before ++ line :: after ->
  compile_lines before compiler_start = Return st ->
  PyStr.startswith "print" line = true ->
  PyStr.split_ws line !! 1%nat = Some var ->
  variables st !! var = None ->
  compile_toy source = Raise (KeyError var).
Proof.
  intros _ Hsrc Hbefore Hp Hv Hn. unfold compile_toy. fold compiler_start.
  rewrite Hsrc, compile_lines_app, Hbefore. cbn [mbind result_bind compile_lines].
  by rewrite (compile_print_unassigned line var st).
Qed.

End Compiler.

Lemma print_of_unassigned_variable_witness :
  sap1_playground.compile_toy "print x;" = Raise (KeyError "x").
Proof.
  refine (print_of_unassigned_variable "print x;" [] [] "print x" "x"
            Spec.compiler_start _ _ _ _ _ _); vm_compute; reflexivity.
Defined.

(** An earlier statement that reads an unassigned variable is reported
    instead of the [print]. *)
Example print_after_undefined_copy :
  sap1_playground.compile_toy "y=z;print x;" = Raise (KeyError "z").
Proof. vm_compute. reflexivity. Qed.

(** C8. The source [printer=5;print x;] prints a variable that no
    earlier statement assigned, and [compile_toy] does not report it: the
    test [startswith("print")] takes the assignment [printer=5] for a
    print statement, whose [split()[1]] is missing, so the compiler raises
    [IndexError] at the first statement, as it does on [printer=5;] alone.
    With the variable named [p] the same source raises the [KeyError] that
    names [x]. *)
Theorem print_after_printer_assignment :
  sap1_playground.statements "printer=5;print x;" = ["printer=5"; "print x"] /\
  sap1_playground.compile_toy "printer=5;print x;" = Raise IndexError /\
  sap1_playground.compile_toy "printer=5;" = Raise IndexError /\
  sap1_playground.compile_toy "p=5;print x;" = Raise (KeyError "x").
Proof. repeat split; vm_compute; reflexivity. Qed.

(** ** The playground interpreter *)

Section Interpreter.
Import sap1_playground Spec.
Local Open Scope Z_scope.

Lemma execute_pc i st st' : execute i st = Return (Some st') -> pc st' = pc st.
Proof.
  destruct i; cbn; unfold of_option;
    repeat case_match; cbn; intros; simplify_eq; reflexivity.
Qed.

Lemma turn_pc code st st' :
  turn code st = inr st' -> pc st' = pc st + 1 /\ pc st < Z.of_nat (length code).
Proof.
  unfold turn. destruct (pc st <? Z.of_nat (length code)) eqn:Hlt; [|discriminate].
  apply Z.ltb_lt in Hlt.
  destruct (PyList.getitem code (pc st)) as [i|]; [|discriminate].
  destruct (execute i st) as [[st1|]|e] eqn:He; try discriminate.
  intros [= <-]. cbn. apply execute_pc in He. lia.
Qed.

Lemma turn_exit code st :
  Z.of_nat (length code) <= pc st -> turn code st = inl (Return (output st), console st).
Proof.
  intros H. unfold turn. apply Z.ltb_ge in H. rewrite H. reflexivity.
Qed.

(** The body can run at most [len(code) - pc] more times. *)
Lemma execute_loop_total fuel code st :
  Z.of_nat (length code) - pc st <= Z.of_nat fuel ->
  exists r, execute_loop fuel code st = Some r.
Proof.
  revert st. induction fuel as [|fuel IH]; intros st Hb; cbn [execute_loop].
  - destruct (pc st <? Z.of_nat (length code)) eqn:Hlt; [|eauto].
    apply Z.ltb_lt in Hlt. lia.
  - destruct (turn code st) as [e|st'] eqn:Ht; [eauto|].
    apply turn_pc in Ht. apply IH. lia.
Qed.

Lemma execute_loop_more_fuel fuel fuel' code st r :
  execute_loop fuel code st = Some r -> (fuel <= fuel')%nat ->
  execute_loop fuel' code st = Some r.
Proof.
  revert fuel' st. induction fuel as [|fuel IH]; intros fuel' st Hr Hle.
  - cbn in Hr. destruct (pc st <? Z.of_nat (length code)) eqn:Hlt; [discriminate|].
    injection Hr as <-. apply Z.ltb_ge in Hlt.
    destruct fuel'; cbn [execute_loop].
    + apply Z.ltb_ge in Hlt. by rewrite Hlt.
    + by rewrite turn_exit.
  - destruct fuel' as [|fuel']; [lia|]. cbn [execute_loop] in *.
    destruct (turn code st) as [e|st']; [exact Hr|].
    apply (IH fuel' st' Hr). lia.
Qed.

Lemma run_fuel_more_fuel fuel fuel' assembly r :
  run_fuel fuel assembly = Some r -> (fuel <= fuel')%nat ->
  run_fuel fuel' assembly = Some r.
Proof.
  unfold run_fuel. destruct (parse assembly) as [code|e]; [|auto].
  apply execute_loop_more_fuel.
Qed.

(** C10. For every assembly text, [run] ends, by returning or by
    raising, within as many executions of the loop body as there are
    parsed instructions, and more fuel changes nothing.  Every execution
    of the body that does not end the loop adds exactly 1 to [pc], and the
    loop is left as soon as [pc] has reached the instruction count. *)
Theorem run_terminates (assembly : string) :
  (exists r, forall fuel, (instruction_count assembly <= fuel)%nat ->
             run_fuel fuel assembly = Some r) /\
  (forall code st st', turn code st = inr st' ->
     pc st' = pc st + 1 /\ pc st < Z.of_nat (length code)) /\
  (forall code st, Z.of_nat (length code) <= pc st ->
     turn code st = inl (Return (output st), console st)).
Proof.
  split; [|split; [apply turn_pc | apply turn_exit]].
  unfold instruction_count, run_fuel.
  destruct (parse assembly) as [code|e]; [|eauto].
  destruct (execute_loop_total (length code) code boot) as [r Hr]; [cbn; lia|].
  exists r. intros fuel Hle. by apply (execute_loop_more_fuel (length code)).
Qed.

End Interpreter.

Lemma run_terminates_witness :
  exists r, sap1_playground.run_fuel 3 Spec.toy_without_halt = Some r.
Proof.
  destruct (run_terminates Spec.toy_without_halt) as [[r Hr] _].
  exists r. apply Hr. vm_compute. lia.
Defined.

(** C4. [compile_toy] turns [a=5;b=7;c=a+b;print c;] into ten lines of
    assembly, and on that text the playground's [run] returns [[12]],
    after printing [OUT = 12], for any fuel from the ten instructions
    on. *)
Theorem toy_program_outputs_12 :
  sap1_playground.compile_toy "a=5;b=7;c=a+b;print c;" = Return Spec.toy_assembly /\
  forall fuel, (10 <= fuel)%nat ->
    sap1_playground.run_fuel fuel Spec.toy_assembly = Some (Return [12%Z], ["OUT = 12"]).
Proof.
  split; [vm_compute; reflexivity|].
  intros fuel. apply run_fuel_more_fuel. vm_compute. reflexivity.
Qed.

Lemma toy_program_outputs_12_witness :
  sap1_playground.run_fuel 10 Spec.toy_assembly = Some (Return [12%Z], ["OUT = 12"]).
Proof.
  apply (proj2 toy_program_outputs_12 10%nat). lia.
Defined.

(** * Further properties of the code *)

(** ** The CPU *)

Section WpOut.
Import SAP1 Facts.
Context {X Y : Type}.

Lemma wpo_bind (m : M X) (f : X -> M Y) s Q :
  wpo m s (fun r s' out =>
             match r with
             | Return x => wpo (f x) s' (fun r' s'' out' => Q r' s'' (out ++ out'))
             | Raise e => Q (Raise e) s' out
             end) ->
  wpo (m ≫= f) s Q.
Proof.
  unfold wpo, outcome, state_after, printed, mbind, M_bind.
  destruct (m s) as [[[x|e] s'] out]; simpl; [|tauto].
  destruct (f x s') as [[r s''] out']; simpl. tauto.
Qed.

Lemma wpo_ret (x : X) s (Q : result X -> SAP1 -> list string -> Prop) :
  Q (Return x) s [] -> wpo (mret x) s Q.
Proof. exact id. Qed.

Lemma wpo_get (field : SAP1 -> X) s (Q : result X -> SAP1 -> list string -> Prop) :
  Q (Return (field s)) s [] -> wpo (get field) s Q.
Proof. exact id. Qed.

Lemma wpo_raise e s (Q : result X -> SAP1 -> list string -> Prop) :
  Q (Raise e) s [] -> wpo (raise e) s Q.
Proof. exact id. Qed.

End WpOut.

Section WpOutUnit.
Import SAP1 Facts.

Lemma wpo_assign (upd : SAP1 -> SAP1) s (Q : result unit -> SAP1 -> list string -> Prop) :
  Q (Return tt) (upd s) [] -> wpo (assign upd) s Q.
Proof. exact id. Qed.

Lemma wpo_print line s (Q : result unit -> SAP1 -> list string -> Prop) :
  Q (Return tt) s [line] -> wpo (print line) s Q.
Proof. exact id. Qed.

Lemma wpo_when (b : bool) m s (Q : result unit -> SAP1 -> list string -> Prop) :
  (if b then wpo m s Q else Q (Return tt) s []) -> wpo (when b m) s Q.
Proof. destruct b; exact id. Qed.

Lemma wpo_mem_get i s (Q : result Z -> SAP1 -> list string -> Prop) :
  match PyList.getitem (memory s) i with
  | Some v => Q (Return v) s []
  | None => Q (Raise IndexError) s []
  end -> wpo (mem_get i) s Q.
Proof. unfold wpo, mem_get. destruct (PyList.getitem _ _); exact id. Qed.

Lemma wpo_mem_set i v s (Q : result unit -> SAP1 -> list string -> Prop) :
  match PyList.setitem (memory s) i v with
  | Some m => Q (Return tt) (set_memory m s) []
  | None => Q (Raise IndexError) s []
  end -> wpo (mem_set i v) s Q.
Proof. unfold wpo, mem_set. destruct (PyList.setitem _ _ _); exact id. Qed.

Lemma wpo_elim {X : Type} (m : M X) s (Q : result X -> SAP1 -> list string -> Prop) :
  wpo m s Q -> Q (outcome (m s)) (state_after (m s)) (printed (m s)).
Proof. exact id. Qed.

End WpOutUnit.

Ltac wpo_rule :=
  lazymatch goal with
  | |- Facts.wpo (mbind _ _) _ _ => apply wpo_bind
  | |- Facts.wpo (mret _) _ _ => apply wpo_ret
  | |- Facts.wpo (SAP1.get _) _ _ => apply wpo_get
  | |- Facts.wpo (SAP1.raise _) _ _ => apply wpo_raise
  | |- Facts.wpo (SAP1.assign _) _ _ => apply wpo_assign
  | |- Facts.wpo (SAP1.print _) _ _ => apply wpo_print
  | |- Facts.wpo (SAP1.when _ _) _ _ => apply wpo_when
  | |- Facts.wpo (SAP1.mem_get _) _ _ => apply wpo_mem_get
  | |- Facts.wpo (SAP1.mem_set _ _) _ _ => apply wpo_mem_set
  end.

Ltac wpo_branch :=
  match goal with
  | H : ?b = _ |- Facts.wpo (if ?b then _ else _) _ _ => rewrite H
  | H : ?b = _ |- (if ?b then _ else _) => rewrite H
  | H : ?o = _ |- match ?o with Some _ => _ | None => _ end => rewrite H
  | |- Facts.wpo (if ?b then _ else _) _ _ => destruct b eqn:?
  | |- (if ?b then _ else _) => destruct b eqn:?
  | |- match ?o with Some _ => _ | None => _ end => destruct o eqn:?
  end.

Ltac wpo_run := repeat first [ wpo_rule | wp_fields | wpo_branch | wp_methods ].

Ltac eqb_facts :=
  repeat match goal with
         | H : (_ =? _)%Z = true |- _ => apply Z.eqb_eq in H
         | H : (_ =? _)%Z = false |- _ => apply Z.eqb_neq in H
         end.

Section MoreCPU.
Import SAP1 Spec Facts.
Local Open Scope Z_scope.

Lemma getitem_in_range (l : list Z) (i : Z) :
  0 <= i < Z.of_nat (length l) -> PyList.getitem l i = l !! Z.to_nat i.
Proof.
  intros Hi. unfold PyList.getitem, PyList.index.
  destruct (0 <=? i) eqn:H0; [|apply Z.leb_gt in H0; lia].
  destruct (i <? Z.of_nat (length l)) eqn:H1; [reflexivity|apply Z.ltb_ge in H1; lia].
Qed.

Lemma setitem_in_range (l : list Z) (i v : Z) :
  0 <= i < Z.of_nat (length l) -> PyList.setitem l i v = Some (<[Z.to_nat i := v]> l).
Proof.
  intros Hi. unfold PyList.setitem, PyList.index.
  destruct (0 <=? i) eqn:H0; [|apply Z.leb_gt in H0; lia].
  destruct (i <? Z.of_nat (length l)) eqn:H1; [reflexivity|apply Z.ltb_ge in H1; lia].
Qed.

Lemma setitem_length (l m : list Z) i v :
  PyList.setitem l i v = Some m -> length m = length l.
Proof.
  unfold PyList.setitem. destruct (PyList.index _ _); cbn; [|discriminate].
  intros [= <-]. apply length_insert.
Qed.

(** No call of [step] writes a tracing flag or changes the number of
    cells. *)
Lemma step_same_shape s : same_shape s (state_after (step s)).
Proof.
  apply (wp_elim step s (fun _ s' => same_shape s s')).
  destruct s. unfold same_shape. wp_run; cbn; repeat split;
    eauto using setitem_length.
Qed.

Lemma step_PC s :
  halted s = false -> length (memory s) = 16%nat ->
  PC (state_after (step s)) = (PC s + 1) mod 16.
Proof.
  intros Hh Hl. rewrite <- u4_mod.
  apply (wp_elim step s (fun _ s' => PC s' = u4 (PC s + 1))).
  destruct s as [m a b o ir pc mar h t ti tm]. cbn in Hh, Hl. subst h.
  wp_run; try reflexivity.
  all: destruct (getitem_u4 m pc Hl) as [? ?]; congruence.
Qed.

Lemma steps_S n s : steps (S n) s = steps n (state_after (step s)).
Proof. reflexivity. Qed.

(** X1. As long as the CPU is not halted, every [step()] on a memory of
    sixteen cells moves [PC] to the next address modulo 16, whatever the
    instruction is and even when it is not decoded: after [n >= 1] calls
    [PC] is [(PC + n) mod 16], so sixteen calls bring it back. *)
Theorem pc_after_steps (n : nat) (s : SAP1) :
  (0 < n)%nat ->
  length (memory s) = 16%nat ->
  (forall k, (k < n)%nat -> halted (steps k s) = false) ->
  PC (steps n s) = (PC s + Z.of_nat n) mod 16.
Proof.
  revert s. induction n as [|n IH]; intros s Hn Hl Hrun; [lia|].
  rewrite steps_S.
  assert (H0 : halted s = false) by (apply (Hrun 0%nat); lia).
  destruct n as [|n].
  - cbn [steps]. by apply step_PC.
  - rewrite IH.
    + rewrite step_PC by assumption. rewrite Zplus_mod_idemp_l. f_equal. lia.
    + lia.
    + destruct (step_same_shape s) as (_ & _ & ->). exact Hl.
    + intros k Hk. rewrite <- steps_S. apply Hrun. lia.
Qed.

End MoreCPU.

Lemma pc_after_steps_witness :
  SAP1.PC (Spec.steps 16 Facts.cpu_of_loads) = 0%Z /\
  SAP1.PC (Spec.steps 5 Facts.cpu_of_loads) = 5%Z.
Proof.
  split.
  - refine (pc_after_steps 16 Facts.cpu_of_loads _ eq_refl _); [lia|].
    intros k Hk. do 16 (destruct k as [|k]; [reflexivity|]). lia.
  - refine (pc_after_steps 5 Facts.cpu_of_loads _ eq_refl _); [lia|].
    intros k Hk. do 5 (destruct k as [|k]; [reflexivity|]). lia.
Defined.

Section MoreCPU2.
Import SAP1 Spec Facts.
Local Open Scope Z_scope.

(** X2. A [step()] that completes an instruction leaves [t_state] at 0.
    A [step()] that raises the decode failure is not undone: [PC] has
    moved to the next address, [MAR] holds the old one, [t_state] is left
    at 3, and memory and [halted] are as before, so the next call goes on
    with the following cell. *)
Theorem step_leaves_t_state (s : SAP1) :
  halted s = false ->
  (forall msg, outcome (step s) = Return msg -> t_state (state_after (step s)) = 0) /\
  (forall why, outcome (step s) = Raise (ValueError why) ->
     t_state (state_after (step s)) = 3 /\
     PC (state_after (step s)) = (PC s + 1) mod 16 /\
     MAR (state_after (step s)) = PC s mod 16 /\
     memory (state_after (step s)) = memory s /\
     halted (state_after (step s)) = false).
Proof.
  intros Hh. rewrite <- !u4_mod.
  apply (wp_elim step s (fun r s' =>
    (forall msg, r = Return msg -> t_state s' = 0) /\
    (forall why, r = Raise (ValueError why) ->
       t_state s' = 3 /\ PC s' = u4 (PC s + 1) /\ MAR s' = u4 (PC s) /\
       memory s' = memory s /\ halted s' = false))).
  destruct s as [m a b o ir pc mar h t ti tm]. cbn in Hh. subst h.
  wp_run; cbn; (split; [intros msg Hm | intros why Hw]);
    first [discriminate | reflexivity | by repeat split].
Qed.

(** X3. Only the store instruction writes memory.  A [step()] that
    fetches a byte whose high nibble is not 0x4 leaves every cell as it
    was; with high nibble 0x4 it writes [A mod 256] into the cell that the
    low nibble addresses and leaves the other cells alone. *)
Theorem step_writes_only_on_STA (s : SAP1) (ir : Z) :
  halted s = false -> fetched s = Some ir ->
  (high_nibble ir <> 0x4 -> memory (state_after (step s)) = memory s) /\
  (high_nibble ir = 0x4 ->
     memory (state_after (step s)) =
       <[Z.to_nat (low_nibble ir) := A s mod 256]> (memory s)).
Proof.
  intros Hh Hf. rewrite <- u8_mod.
  apply (wp_elim step s (fun _ s' =>
    (high_nibble ir <> 0x4 -> memory s' = memory s) /\
    (high_nibble ir = 0x4 ->
       memory s' = <[Z.to_nat (low_nibble ir) := u8 (A s)]> (memory s)))).
  destruct s as [m a b o ir0 pc mar h t ti tm]. cbn in Hh. subst h.
  unfold fetched, high_nibble, low_nibble in *. cbn [memory PC] in Hf.
  destruct (PyList.getitem m (u4 pc)) as [z|] eqn:Hz; [|discriminate].
  injection Hf as <-.
  assert (Hlow : u4 (Z.land (u8 z) 15) = Z.land (u8 z) 15).
  { rewrite u4_mod. apply Z.mod_small. change 15 with (Z.ones 4).
    rewrite Z.land_ones by lia. apply Z.mod_pos_bound. lia. }
  wp_run; eqb_facts; cbn [memory A]; (split; intros Hop; try congruence; try reflexivity).
  all: rewrite Hlow in *.
  all: match goal with
       | H : PyList.setitem _ _ _ = _ |- _ => revert H
       end; unfold PyList.setitem, PyList.index.
  all: assert (0 <= Z.land (u8 z) 15) by (apply Z.land_nonneg; lia).
  all: destruct (0 <=? Z.land (u8 z) 15) eqn:H0; [|apply Z.leb_gt in H0; lia].
  all: destruct (Z.land (u8 z) 15 <? Z.of_nat (length m)) eqn:H1; cbn;
    intros [= <-] || (intros _; symmetry; apply list_insert_ge; apply Z.ltb_ge in H1; lia);
    reflexivity.
Qed.

End MoreCPU2.

Lemma step_leaves_t_state_witness :
  SAP1.t_state (SAP1.state_after (SAP1.step (Spec.cpu_with_byte 0x5F))) = 3%Z /\
  SAP1.PC (SAP1.state_after (SAP1.step (Spec.cpu_with_byte 0x5F))) = 1%Z /\
  SAP1.t_state (SAP1.state_after (SAP1.step (Spec.cpu_with_byte 0x1F))) = 0%Z.
Proof.
  destruct (step_leaves_t_state (Spec.cpu_with_byte 0x5F) eq_refl) as [_ H].
  destruct (H (Message "Unknown opcode 5 in IR=5F") eq_refl) as (Ht & Hp & _).
  destruct (step_leaves_t_state (Spec.cpu_with_byte 0x1F) eq_refl) as [H1 _].
  split; [exact Ht|]. split; [exact Hp|].
  exact (H1 (Some "PC=1 IR=1F A=00 B=00 OUT=00 :: LDA F") eq_refl).
Defined.

Lemma step_writes_only_on_STA_witness :
  SAP1.memory (SAP1.state_after (SAP1.step (SAP1.set_A 0x1FF (Spec.cpu_with_byte 0x43)))) =
    [0x43; 0; 0; 0xFF; 0; 0; 0; 0; 0; 0; 0; 0; 0; 0; 0; 0]%Z /\
  SAP1.memory (SAP1.state_after (SAP1.step (Spec.cpu_with_byte 0x23))) =
    SAP1.memory (Spec.cpu_with_byte 0x23).
Proof.
  split.
  - exact (proj2 (step_writes_only_on_STA (SAP1.set_A 0x1FF (Spec.cpu_with_byte 0x43)) 0x43
                    eq_refl eq_refl) eq_refl).
  - apply (proj1 (step_writes_only_on_STA (Spec.cpu_with_byte 0x23) 0x23 eq_refl eq_refl)).
    discriminate.
Defined.

Section Shape.
Import SAP1 Spec Facts.
Local Open Scope Z_scope.

Lemma same_shape_refl s : same_shape s s.
Proof. by repeat split. Qed.

Lemma same_shape_trans s1 s2 s3 : same_shape s1 s2 -> same_shape s2 s3 -> same_shape s1 s3.
Proof. unfold same_shape. intuition congruence. Qed.

Lemma load_program_same_shape pairs s : same_shape s (state_after (load_program pairs s)).
Proof.
  revert s. induction pairs as [|[addr b] rest IH]; intros s; [apply same_shape_refl|].
  change (wp (mem_set (u4 addr) (u8 b) ≫= (fun _ => load_program rest)) s
             (fun _ s' => same_shape s s')).
  apply wp_bind, wp_mem_set.
  destruct (PyList.setitem _ _ _) as [m|] eqn:Hm; [|apply same_shape_refl].
  eapply same_shape_trans; [|apply IH].
  destruct s. repeat split. cbn. eauto using setitem_length.
Qed.

Lemma reset_same_shape s : same_shape s (state_after (reset s)).
Proof. destruct s. by repeat split. Qed.

(** One turn of the loop of [run], in terms of [step]. *)
Lemma run_loop_S fuel trace s :
  halted s = false ->
  run_loop (S fuel) trace s =
    match step s with
    | (Return msg, s', out) =>
        let trace' := match msg with
                      | Some m => if PyStr.is_empty m then trace else trace ++ [m]
                      | None => trace
                      end in
        match run_loop fuel trace' s' with
        | (r, s'', out') => (r, s'', out ++ out')
        end
    | (Raise e, s', out) => (Raise e, s', out)
    end.
Proof.
  intros Hh. cbn [run_loop]. unfold mbind at 1, M_bind at 1, get. rewrite Hh.
  unfold mbind, M_bind.
  destruct (step s) as [[[msg|e] s'] out]; [|reflexivity].
  destruct (run_loop fuel _ s') as [[r s''] out']. reflexivity.
Qed.

Lemma run_loop_same_shape fuel trace s :
  same_shape s (state_after (run_loop fuel trace s)).
Proof.
  revert trace s. induction fuel as [|fuel IH]; intros trace s; [apply same_shape_refl|].
  destruct (halted s) eqn:Hh.
  - rewrite run_loop_halted by exact Hh. apply same_shape_refl.
  - rewrite run_loop_S by exact Hh.
    pose proof (step_same_shape s) as Hs. unfold state_after in Hs |- *.
    destruct (step s) as [[[msg|e] s'] out]; cbn in *; [|exact Hs].
    match goal with
    | |- context [run_loop fuel ?t s'] =>
        specialize (IH t s'); destruct (run_loop fuel t s') as [[r s''] out']
    end.
    cbn in *. eapply same_shape_trans; eauto.
Qed.

(** X4. None of [reset], [load_program], [step] and [run] writes a
    tracing flag or changes the number of memory cells, whether the call
    returns or raises. *)
Theorem operations_keep_shape (s : SAP1) (pairs : list (Z * Z)) (max_steps : Z) :
  same_shape s (state_after (reset s)) /\
  same_shape s (state_after (load_program pairs s)) /\
  same_shape s (state_after (step s)) /\
  same_shape s (state_after (run max_steps s)).
Proof.
  repeat split;
    first [ apply reset_same_shape | apply load_program_same_shape
          | apply step_same_shape | apply run_loop_same_shape ].
Qed.

(** X5. Storing and loading back.  On a memory of sixteen cells
    [_exec_STA(addr)] followed by [_exec_LDA(addr2)], with [addr] and
    [addr2] equal modulo 16, returns normally, leaves [A mod 256] both in
    [A] and in the cell, and changes no other cell. *)
Theorem store_then_load (s : SAP1) (addr addr2 : Z) :
  length (memory s) = 16%nat -> addr mod 16 = addr2 mod 16 ->
  let r := (_exec_STA addr ≫= fun _ => _exec_LDA addr2) s in
  outcome r = Return tt /\
  A (state_after r) = A s mod 256 /\
  memory (state_after r) = <[Z.to_nat (addr mod 16) := A s mod 256]> (memory s).
Proof.
  intros Hl Ha. cbv zeta. rewrite <- !u4_mod in *. rewrite <- u8_mod.
  apply (wp_elim (_exec_STA addr ≫= fun _ => _exec_LDA addr2) s
    (fun r s' => r = Return tt /\ A s' = u8 (A s) /\
                 memory s' = <[Z.to_nat (u4 addr) := u8 (A s)]> (memory s))).
  destruct s as [m a b o ir pc mar h t ti tm]. cbn in Hl.
  pose proof (u4_nibble addr) as Hn. unfold nibble in Hn.
  assert (Hset : PyList.setitem m (u4 addr) (u8 a) = Some (<[Z.to_nat (u4 addr) := u8 a]> m))
    by (apply setitem_in_range; lia).
  assert (Hget : PyList.getitem (<[Z.to_nat (u4 addr) := u8 a]> m) (u4 addr2) = Some (u8 a)).
  { rewrite <- Ha, getitem_in_range by (rewrite length_insert; lia).
    apply list_lookup_insert_eq. lia. }
  wp_run. split; [reflexivity|]. split; [|reflexivity].
  rewrite !u8_mod. apply Zmod_mod.
Qed.

(** X6. Adding a cell and subtracting it again.  When the addressed
    cell exists, [_exec_ADD(addr)] followed by [_exec_SUB(addr)] returns
    normally with [A mod 256] in [A] and the cell's value modulo 256 in
    [B]: the wrap-around of the sum is undone by the wrap-around of the
    difference. *)
Theorem add_then_sub (s : SAP1) (addr v : Z) :
  PyList.getitem (memory s) (addr mod 16) = Some v ->
  let r := (_exec_ADD addr ≫= fun _ => _exec_SUB addr) s in
  outcome r = Return tt /\
  A (state_after r) = A s mod 256 /\
  B (state_after r) = v mod 256.
Proof.
  intros Hv. cbv zeta. rewrite <- u4_mod in Hv.
  apply (wp_elim (_exec_ADD addr ≫= fun _ => _exec_SUB addr) s
    (fun r s' => r = Return tt /\ A s' = A s mod 256 /\ B s' = v mod 256)).
  destruct s as [m a b o ir pc mar h t ti tm]. cbn [memory] in Hv.
  wp_run. rewrite !u8_mod. split; [reflexivity|]. split; [|reflexivity].
  rewrite Zminus_mod_idemp_l. f_equal. lia.
Qed.

End Shape.

Lemma store_then_load_witness :
  let r := (SAP1._exec_STA 0x1C ≫= fun _ => SAP1._exec_LDA 12) (SAP1.set_A 300 SAP1.fresh) in
  SAP1.A (SAP1.state_after r) = 44%Z /\
  SAP1.memory (SAP1.state_after r) = [0; 0; 0; 0; 0; 0; 0; 0; 0; 0; 0; 0; 44; 0; 0; 0]%Z.
Proof.
  intros r.
  destruct (store_then_load (SAP1.set_A 300 SAP1.fresh) 0x1C 12 eq_refl eq_refl)
    as (_ & Ha & Hm).
  split; [exact Ha | exact Hm].
Defined.

Lemma add_then_sub_witness :
  let r := (SAP1._exec_ADD 9 ≫= fun _ => SAP1._exec_SUB 9) (Spec.cpu_with_A 250 10) in
  SAP1.outcome r = Return tt /\ SAP1.A (SAP1.state_after r) = 250%Z /\
  SAP1.B (SAP1.state_after r) = 10%Z.
Proof.
  intros r. exact (add_then_sub (Spec.cpu_with_A 250 10) 9 10 eq_refl).
Defined.

Section LoadRun.
Import SAP1 Spec Facts.
Local Open Scope Z_scope.

Lemma mem_set_registers i v s :
  let s' := state_after (mem_set i v s) in
  A s' = A s /\ B s' = B s /\ OUT s' = OUT s /\ IR s' = IR s /\ PC s' = PC s /\
  MAR s' = MAR s /\ halted s' = halted s /\ t_state s' = t_state s.
Proof.
  unfold mem_set, state_after. destruct (PyList.setitem _ _ _); destruct s; by repeat split.
Qed.

Lemma load_program_registers pairs s :
  let s' := state_after (load_program pairs s) in
  A s' = A s /\ B s' = B s /\ OUT s' = OUT s /\ IR s' = IR s /\ PC s' = PC s /\
  MAR s' = MAR s /\ halted s' = halted s /\ t_state s' = t_state s.
Proof.
  revert s. induction pairs as [|[addr b] rest IH]; intros s; [by repeat split|].
  change (wp (mem_set (u4 addr) (u8 b) ≫= (fun _ => load_program rest)) s
             (fun _ s' => A s' = A s /\ B s' = B s /\ OUT s' = OUT s /\ IR s' = IR s /\
                          PC s' = PC s /\ MAR s' = MAR s /\ halted s' = halted s /\
                          t_state s' = t_state s)).
  apply wp_bind.
  pose proof (mem_set_registers (u4 addr) (u8 b) s) as Hm. cbv zeta in Hm.
  unfold wp at 1. destruct (outcome (mem_set (u4 addr) (u8 b) s)); [|exact Hm].
  specialize (IH (state_after (mem_set (u4 addr) (u8 b) s))). cbv zeta in IH.
  unfold wp. intuition congruence.
Qed.

Lemma load_program_cells pairs s (a : Z) :
  length (memory s) = 16%nat -> 0 <= a < 16 ->
  memory (state_after (load_program pairs s)) !! Z.to_nat a =
    match last_write pairs a with
    | Some v => Some v
    | None => memory s !! Z.to_nat a
    end.
Proof.
  revert s. induction pairs as [|[addr b] rest IH]; intros s Hl Ha; [reflexivity|].
  pose proof (u4_nibble addr) as Hn. unfold nibble in Hn.
  change (wp (mem_set (u4 addr) (u8 b) ≫= (fun _ => load_program rest)) s
             (fun _ s' => memory s' !! Z.to_nat a =
                          match last_write ((addr, b) :: rest) a with
                          | Some v => Some v
                          | None => memory s !! Z.to_nat a
                          end)).
  apply wp_bind, wp_mem_set.
  rewrite setitem_in_range by lia.
  unfold wp. rewrite IH; [|destruct s; cbn in *; by rewrite length_insert|exact Ha].
  cbn [last_write]. destruct (last_write rest a) as [v|]; [reflexivity|].
  destruct s as [m ? ? ? ? ? ? ? ? ? ?]. cbn in *.
  destruct (u4 addr =? a) eqn:He.
  - apply Z.eqb_eq in He. subst a. apply list_lookup_insert_eq. lia.
  - apply Z.eqb_neq in He. apply list_lookup_insert_ne. lia.
Qed.

(** X7. [load_program] on a memory of sixteen cells always returns
    normally.  Afterwards each cell [a] holds the byte, masked to eight
    bits, of the last pair whose address is [a] modulo 16, or what it held
    before when no pair addresses it; the registers and [halted] are
    untouched. *)
Theorem load_program_writes (pairs : list (Z * Z)) (s : SAP1) (a : Z) :
  length (memory s) = 16%nat -> 0 <= a < 16 ->
  let s' := state_after (load_program pairs s) in
  outcome (load_program pairs s) = Return tt /\
  PyList.getitem (memory s') a =
    match last_write pairs a with
    | Some v => Some v
    | None => PyList.getitem (memory s) a
    end /\
  A s' = A s /\ B s' = B s /\ OUT s' = OUT s /\ IR s' = IR s /\ PC s' = PC s /\
  MAR s' = MAR s /\ halted s' = halted s /\ t_state s' = t_state s.
Proof.
  intros Hl Ha. cbv zeta.
  destruct (load_program_returns pairs s Hl) as [Hr Hl'].
  split; [exact Hr|]. split; [|apply load_program_registers].
  rewrite !getitem_in_range by lia. by apply load_program_cells.
Qed.

(** X8. [run] is [step] called again and again.  When none of the first
    [n] calls of [step] raises, [run(n)] returns normally and leaves the
    CPU in the state that [n] calls of [step] leave (a call on a halted
    CPU changes nothing, so stopping at [HLT] makes no difference). *)
Theorem run_is_iterated_step (n : nat) (s : SAP1) :
  (forall k, (k < n)%nat -> exists msg, outcome (step (steps k s)) = Return msg) ->
  (exists trace, outcome (run (Z.of_nat n) s) = Return trace) /\
  state_after (run (Z.of_nat n) s) = steps n s.
Proof.
  unfold run. rewrite Nat2Z.id. generalize (@nil string) as trace.
  revert s. induction n as [|n IH]; intros s trace Hok; [by eauto|].
  destruct (halted s) eqn:Hh.
  - rewrite run_loop_halted, steps_halted by exact Hh. eauto.
  - rewrite run_loop_S by exact Hh. rewrite steps_S.
    destruct (Hok 0%nat ltac:(lia)) as [msg Hmsg]. cbn [steps] in Hmsg.
    assert (Hok' : forall k, (k < n)%nat ->
              exists msg, outcome (step (steps k (state_after (step s)))) = Return msg)
      by (intros k Hk; apply (Hok (S k)); lia).
    clear Hok. unfold outcome, state_after in *.
    destruct (step s) as [[r s'] out]. cbn in Hmsg. subst r. cbn [fst snd].
    match goal with
    | |- context [run_loop n ?t s'] =>
        specialize (IH s' t); destruct (run_loop n t s') as [[r s''] out']
    end.
    cbn in *. apply IH. exact Hok'.
Qed.

Lemma step_message s msg :
  outcome (step s) = Return (Some msg) ->
  trace_instructions s = true /\ PyStr.is_empty msg = false.
Proof.
  apply (wp_elim step s (fun r _ =>
    r = Return (Some msg) -> trace_instructions s = true /\ PyStr.is_empty msg = false)).
  destruct s. wp_run; cbn; intros H; try discriminate; injection H as <-; by split.
Qed.

Lemma run_loop_trace fuel trace s trace' :
  outcome (run_loop fuel trace s) = Return trace' ->
  exists added, trace' = trace ++ added /\ (length added <= fuel)%nat /\
                (trace_instructions s = false -> added = []).
Proof.
  revert trace s. induction fuel as [|fuel IH]; intros trace s.
  - cbn. intros [= <-]. exists []. rewrite app_nil_r. by repeat split.
  - destruct (halted s) eqn:Hh.
    + rewrite run_loop_halted by exact Hh. cbn. intros [= <-].
      exists []. rewrite app_nil_r. split; [reflexivity|]. split; [cbn; lia|done].
    + rewrite run_loop_S by exact Hh.
      pose proof (step_message s) as Hmsg.
      destruct (step_same_shape s) as (Hti & _ & _).
      unfold outcome, state_after in *.
      destruct (step s) as [[[msg|e] s1] out]; [|discriminate].
      cbn in Hmsg, Hti.
      match goal with
      | |- context [run_loop fuel ?t s1] =>
          specialize (IH t s1); destruct (run_loop fuel t s1) as [[r s2] out']
      end.
      cbn in *. intros Hr. destruct (IH Hr) as (added & -> & Hlen & Hoff).
      rewrite Hti in Hoff.
      destruct msg as [m|].
      * destruct (Hmsg m eq_refl) as [Hon Hne]. rewrite Hne.
        exists (m :: added). rewrite <- app_assoc. cbn.
        split; [reflexivity|]. split; [lia|congruence].
      * exists added. split; [reflexivity|]. split; [lia|exact Hoff].
Qed.

(** X9. The trace that [run(max_steps)] returns has at most [max_steps]
    lines (none when [max_steps] is zero or negative), and it is empty
    when [trace_instructions] is off. *)
Theorem run_trace_bound (max_steps : Z) (s : SAP1) (trace : list string) :
  outcome (run max_steps s) = Return trace ->
  (length trace <= Z.to_nat max_steps)%nat /\
  (trace_instructions s = false -> trace = []).
Proof.
  intros Hr. destruct (run_loop_trace _ _ _ _ Hr) as (added & -> & Hlen & Hoff).
  split; [exact Hlen | exact Hoff].
Qed.

End LoadRun.

Lemma load_program_writes_witness :
  let s' := SAP1.state_after
              (SAP1.load_program [(3, 7); (19, 0x1FF); (5, -1)]%Z (SAP1.set_A 9 SAP1.fresh)) in
  PyList.getitem (SAP1.memory s') 3 = Some 255%Z /\
  PyList.getitem (SAP1.memory s') 5 = Some 255%Z /\
  PyList.getitem (SAP1.memory s') 4 = Some 0%Z /\
  SAP1.A s' = 9%Z.
Proof.
  intros s'.
  pose proof (load_program_writes [(3, 7); (19, 0x1FF); (5, -1)]%Z (SAP1.set_A 9 SAP1.fresh)) as H.
  destruct (H 3%Z eq_refl ltac:(lia)) as (_ & H3 & Ha & _).
  destruct (H 5%Z eq_refl ltac:(lia)) as (_ & H5 & _).
  destruct (H 4%Z eq_refl ltac:(lia)) as (_ & H4 & _).
  exact (conj H3 (conj H5 (conj H4 Ha))).
Defined.

Lemma run_is_iterated_step_witness :
  SAP1.state_after (SAP1.run (Z.of_nat 5) Facts.cpu_of_loads) = Spec.steps 5 Facts.cpu_of_loads.
Proof.
  apply (run_is_iterated_step 5 Facts.cpu_of_loads).
  intros k Hk. do 5 (destruct k as [|k]; [vm_compute; eexists; reflexivity|]). lia.
Defined.

Lemma run_trace_bound_witness :
  (length ["PC=1 IR=10 A=10 B=00 OUT=00 :: LDA 0"; "PC=2 IR=10 A=10 B=00 OUT=00 :: LDA 0"]
   <= Z.to_nat 2)%nat.
Proof.
  refine (proj1 (run_trace_bound 2 Facts.cpu_of_loads
           ["PC=1 IR=10 A=10 B=00 OUT=00 :: LDA 0"; "PC=2 IR=10 A=10 B=00 OUT=00 :: LDA 0"] _)).
  vm_compute. reflexivity.
Defined.

Section Resume.
Import SAP1 Spec Facts.
Local Open Scope Z_scope.

Lemma run_loop_prefix fuel trace s :
  run_loop fuel trace s = with_prefix trace (run_loop fuel [] s).
Proof.
  revert trace s. induction fuel as [|fuel IH]; intros trace s.
  - cbn. by rewrite app_nil_r.
  - destruct (halted s) eqn:Hh.
    + rewrite !run_loop_halted by exact Hh. cbn. by rewrite app_nil_r.
    + rewrite !run_loop_S by exact Hh.
      destruct (step s) as [[[msg|e] s1] out]; [|reflexivity].
      cbv zeta.
      assert (Hgen : forall added,
                match run_loop fuel (trace ++ added) s1 with
                | (r, s2, out') => (r, s2, out ++ out')
                end =
                with_prefix trace
                  match run_loop fuel added s1 with
                  | (r, s2, out') => (r, s2, out ++ out')
                  end).
      { intros added. rewrite (IH (trace ++ added)), (IH added).
        destruct (run_loop fuel [] s1) as [[[t|e] s2] out']; cbn; [|reflexivity].
        by rewrite app_assoc. }
      destruct msg as [m|].
      * destruct (PyStr.is_empty m).
        -- rewrite <- (app_nil_r trace) at 1. apply Hgen.
        -- apply (Hgen [m]).
      * rewrite <- (app_nil_r trace) at 1. apply Hgen.
Qed.

Lemma run_loop_add a b trace s :
  run_loop (a + b) trace s = (run_loop a trace ≫= run_loop b) s.
Proof.
  revert trace s. induction a as [|a IH]; intros trace s.
  - cbn [Nat.add run_loop]. unfold mbind, M_bind, mret, M_ret.
    by destruct (run_loop b trace s) as [[r s'] out].
  - cbn [Nat.add]. destruct (halted s) eqn:Hh.
    + unfold mbind, M_bind. rewrite !run_loop_halted by exact Hh. reflexivity.
    + unfold mbind, M_bind. rewrite !run_loop_S by exact Hh.
      destruct (step s) as [[[msg|e] s1] out]; [|reflexivity].
      cbv zeta. rewrite IH. unfold mbind, M_bind.
      match goal with
      | |- context [run_loop a ?t s1] => destruct (run_loop a t s1) as [[[t1|e] s2] out1]
      end; [|reflexivity].
      destruct (run_loop b t1 s2) as [[r s3] out2]. by rewrite app_assoc.
Qed.


Lemma step_quiet s :
  trace_microsteps s = false -> printed (step s) = [].
Proof.
  intros Hq. apply (wpo_elim step s (fun _ _ out => out = [])).
  destruct s as [m a b o ir pc mar h t ti tm]. cbn in Hq. subst tm.
  wpo_run; reflexivity.
Qed.

Lemma run_loop_quiet fuel trace s :
  trace_microsteps s = false -> printed (run_loop fuel trace s) = [].
Proof.
  revert trace s. induction fuel as [|fuel IH]; intros trace s Hq; [reflexivity|].
  destruct (halted s) eqn:Hh.
  - by rewrite run_loop_halted.
  - rewrite run_loop_S by exact Hh.
    pose proof (step_quiet s Hq) as Hp.
    destruct (step_same_shape s) as (_ & Htm & _).
    unfold printed, state_after in *.
    destruct (step s) as [[[msg|e] s1] out]; cbn in *; [|exact Hp].
    subst out.
    match goal with
    | |- context [run_loop fuel ?t s1] =>
        specialize (IH t s1); destruct (run_loop fuel t s1) as [[r s2] out']
    end.
    cbn in *. apply IH. congruence.
Qed.

(** X11. With [trace_microsteps] off, neither [step] nor [run] prints
    anything.  With it on, a [step()] that fetches a byte prints exactly
    the three lines T0, T1 and T2, with the program counter before the
    fetch, the fetched byte and its two nibbles, whether the instruction
    then completes or raises. *)
Theorem microstep_lines_printed (s : SAP1) (max_steps : Z) :
  (trace_microsteps s = false ->
   printed (step s) = [] /\ printed (run max_steps s) = []) /\
  (trace_microsteps s = true -> halted s = false ->
   forall ir, fetched s = Some ir -> printed (step s) = microstep_lines (PC s) ir).
Proof.
  split.
  - intros Hq. split; [by apply step_quiet | by apply run_loop_quiet].
  - intros Hon Hh ir Hf.
    apply (wpo_elim step s (fun _ _ out => out = microstep_lines (PC s) ir)).
    destruct s as [m a b o ir0 pc mar h t ti tm]. cbn in Hon, Hh. subst tm h.
    unfold fetched in Hf. cbn [memory PC] in Hf.
    destruct (PyList.getitem m (u4 pc)) as [z|] eqn:Hz; [|discriminate].
    injection Hf as <-.
    wpo_run; reflexivity.
Qed.

End Resume.


Lemma microstep_lines_printed_witness :
  SAP1.printed (SAP1.step (SAP1.mkSAP1 (replicate 16 0x2A%Z) 0 0 0 0 3 0 false 0 true true)) =
    ["T0: MAR <- PC = 3"; "T1: IR <- M[MAR] = 2A; PC <- PC+1"; "T2: Decode -> opcode=2, addr=A"] /\
  SAP1.printed (SAP1.run 4 Facts.cpu_of_loads) = [].
Proof.
  split.
  - exact (proj2 (microstep_lines_printed
                    (SAP1.mkSAP1 (replicate 16 0x2A%Z) 0 0 0 0 3 0 false 0 true true) 0)
                 eq_refl eq_refl 0x2A%Z eq_refl).
  - exact (proj2 (proj1 (microstep_lines_printed Facts.cpu_of_loads 4) eq_refl)).
Defined.

(** ** The assembler, further *)

Section MoreAssembler.
Import SAP1 Spec Facts.
Local Open Scope Z_scope.

Lemma nibble_land x : 0 <= Z.land x 15 < 16.
Proof.
  change 15 with (Z.ones 4). rewrite Z.land_ones by lia. apply Z.mod_pos_bound. lia.
Qed.

Lemma land_15_mod x : Z.land x 15 = x mod 16.
Proof. change 15 with (Z.ones 4). by rewrite Z.land_ones by lia. Qed.

(** The two nibbles of an instruction byte built from an opcode and an
    address. *)
Lemma nibbles_of_lor x y :
  0 <= x < 16 -> 0 <= y < 16 ->
  high_nibble (Z.lor (Z.shiftl x 4) y) = x /\
  low_nibble (Z.lor (Z.shiftl x 4) y) = y /\
  byte (Z.lor (Z.shiftl x 4) y).
Proof.
  intros Hx Hy.
  assert (x ∈ seqZ 0 16) as Hxs by (apply elem_of_seqZ; lia).
  assert (y ∈ seqZ 0 16) as Hys by (apply elem_of_seqZ; lia).
  revert y Hy Hys. revert x Hx Hxs.
  assert (H : Forall (fun x => Forall (fun y =>
                high_nibble (Z.lor (Z.shiftl x 4) y) = x /\
                low_nibble (Z.lor (Z.shiftl x 4) y) = y /\
                byte (Z.lor (Z.shiftl x 4) y)) (seqZ 0 16)) (seqZ 0 16)).
  { set (l := seqZ 0 16). vm_compute in l. subst l.
    repeat (apply Forall_cons; split;
            [ repeat (apply Forall_cons; split; [vm_compute; by repeat split|]);
              constructor
            | ]).
    constructor. }
  intros x _ Hxs y _ Hys.
  rewrite Forall_forall in H. specialize (H x Hxs).
  rewrite Forall_forall in H. exact (H y Hys).
Qed.

Lemma OPCODES_lookup mnemonic opcode :
  OPCODES !! mnemonic = Some opcode ->
  (mnemonic, opcode) ∈ [("LDA", 0x1); ("ADD", 0x2); ("SUB", 0x3); ("STA", 0x4);
                         ("OUT", 0xE); ("HLT", 0xF)].
Proof. apply elem_of_list_to_map_2. Qed.

Ltac opcode_cases H :=
  apply OPCODES_lookup in H;
  repeat (apply elem_of_cons in H as [H|H]; [injection H as -> ->|]);
  [..|by apply elem_of_nil in H].

Lemma encode_item_decodes (labels : gmap string Z) (mnemonic : string)
    (opnd : option string) (b : Z) (s : SAP1) :
  String.eqb mnemonic ".BYTE" = false ->
  encode_item labels (mnemonic, opnd) = Return b ->
  byte b /\
  OPCODES !! mnemonic = Some (high_nibble b) /\
  known_opcode (high_nibble b) = true /\
  (if takes_operand mnemonic
   then exists addr, parse_addr labels opnd = Return addr /\ low_nibble b = addr mod 16
   else low_nibble b = 0) /\
  outcome (_decode (set_IR b s)) = Return (high_nibble b, low_nibble b).
Proof.
  intros Hb. unfold encode_item. rewrite Hb.
  destruct (OPCODES !! mnemonic) as [opcode|] eqn:Hop; [|discriminate].
  cbn [of_option mbind result_bind].
  assert (Hdec : forall b', outcome (_decode (set_IR b' s)) =
                            Return (high_nibble b', low_nibble b')).
  { intros b'. apply (wp_elim _decode (set_IR b' s)
                        (fun r _ => r = Return (high_nibble b', low_nibble b'))).
    destruct s. wp_run; reflexivity. }
  pose proof Hop as Hop'. opcode_cases Hop; unfold takes_operand;
    repeat match goal with
           | |- context [String.eqb ?a ?c] =>
               let v := eval vm_compute in (String.eqb a c) in
               change (String.eqb a c) with v
           end;
    cbn [orb].
  1-4: destruct (parse_addr labels opnd) as [addr|e] eqn:Hp; cbn [mbind result_bind];
    [|discriminate]; intros [= <-];
    match goal with
    | |- context [Z.lor (Z.shiftl (Z.land ?c 15) 4) _] =>
        destruct (nibbles_of_lor (Z.land c 15) (Z.land addr 15)
                    ltac:(vm_compute; split; [discriminate|reflexivity])
                    (nibble_land addr)) as (Hh & Hl & Hby)
    end;
    rewrite Hdec, Hh, Hl; split; [exact Hby|]; split; [exact Hop'|];
    split; [reflexivity|]; split; [|reflexivity];
    exists addr; split; [reflexivity | apply land_15_mod].
  all: intros [= <-]; rewrite Hdec; split; [vm_compute; split; discriminate|];
    repeat split; reflexivity.
Qed.

(** X12. Assembling and decoding.  The byte that the second pass emits
    for a mnemonic is in [0, 255]; its high nibble is the mnemonic's entry
    in [OPCODES], which [step] knows; its low nibble is the resolved
    address modulo 16 for [LDA], [ADD], [SUB] and [STA] and zero for [OUT]
    and [HLT]; and [_decode] gives back exactly that pair. *)
Theorem assembled_instruction_decodes (labels : gmap string Z) (mnemonic : string)
    (opnd : option string) (b : Z) (s : SAP1) :
  String.eqb mnemonic ".BYTE" = false ->
  encode_item labels (mnemonic, opnd) = Return b ->
  byte b /\
  OPCODES !! mnemonic = Some (high_nibble b) /\
  known_opcode (high_nibble b) = true /\
  (if takes_operand mnemonic
   then exists addr, parse_addr labels opnd = Return addr /\ low_nibble b = addr mod 16
   else low_nibble b = 0) /\
  outcome (_decode (set_IR b s)) = Return (high_nibble b, low_nibble b).
Proof. apply encode_item_decodes. Qed.

End MoreAssembler.

Lemma assembled_instruction_decodes_witness :
  SAP1.encode_item (<["c" := 24%Z]> ∅) ("STA", Some "c") = Return 0x48%Z /\
  SAP1.outcome (SAP1._decode (SAP1.set_IR 0x48 SAP1.fresh)) = Return (4%Z, 8%Z).
Proof.
  split; [reflexivity|].
  exact (proj2 (proj2 (proj2 (proj2
    (assembled_instruction_decodes (<["c" := 24%Z]> ∅) "STA" (Some "c") 0x48 SAP1.fresh
       eq_refl eq_refl))))).
Defined.

Section Layout.
Import SAP1 Spec Facts.
Local Open Scope Z_scope.

Lemma layout_line_ok line st st' :
  layout_ok st -> layout_line line st = Return st' ->
  layout_ok st' /\
  length (items st') =
    (length (items st) + if PyStr.endswith_char ":" line then 0 else 1)%nat.
Proof.
  intros (Hpc & Hlab & Hit). unfold layout_line.
  destruct (PyStr.endswith_char ":" line).
  - intros [= <-]. unfold layout_ok. cbn [pc labels items].
    split; [|lia]. split; [exact Hpc|]. split; [|exact Hit].
    apply map_Forall_insert_2; [cbn beta; lia|]. exact Hlab.
  - destruct (PyStr.split_ws _ !! 0%nat) as [part0|]; [|discriminate].
    cbn [of_option mbind result_bind].
    assert (Hgrow : forall item, item_ok item ->
              layout_ok (mkLayout (labels st) (pc st + 1) (items st ++ [item])) /\
              length (items st ++ [item]) = (length (items st) + 1)%nat).
    { intros item Hitem. rewrite length_app. cbn [length]. split; [|reflexivity].
      unfold layout_ok. cbn [pc labels items].
      split; [rewrite length_app; cbn [length]; lia|].
      split; [|apply Forall_app; split; [exact Hit|by constructor]].
      eapply map_Forall_impl; [exact Hlab|]. cbn beta. intros _ a Ha. lia. }
    destruct (String.eqb (PyStr.upper part0) ".BYTE") eqn:Hbyte.
    + destruct (PyStr.split_ws _ !! 1%nat) as [part1|]; [|discriminate].
      cbn. intros [= <-]. apply Hgrow. left. by eauto.
    + destruct (OPCODES !! PyStr.upper part0) as [opcode|] eqn:Hop; [|discriminate].
      intros [= <-]. apply Hgrow. right. by eauto.
Qed.

Lemma layout_lines_ok cleaned st st' :
  layout_ok st -> layout_lines cleaned st = Return st' ->
  layout_ok st' /\
  length (items st') = (length (items st) + length (emitting cleaned))%nat.
Proof.
  revert st. induction cleaned as [|line rest IH]; intros st Hok.
  - cbn. intros [= <-]. split; [exact Hok|lia].
  - cbn [layout_lines]. destruct (layout_line line st) as [st1|e] eqn:H1; [|discriminate].
    cbn [mbind result_bind]. intros Hrest.
    destruct (layout_line_ok line st st1 Hok H1) as [Hok1 Hlen1].
    destruct (IH st1 Hok1 Hrest) as [Hok' Hlen']. split; [exact Hok'|].
    rewrite Hlen', Hlen1. unfold emitting. rewrite filter_cons.
    destruct (PyStr.endswith_char ":" line); [rewrite decide_False by done|
                                              rewrite decide_True by done]; cbn; lia.
Qed.

Lemma layout_start_ok : layout_ok (mkLayout ∅ 0 []).
Proof. split; [reflexivity|]. split; [apply map_Forall_empty|constructor]. Qed.

Lemma encode_item_byte labels item b :
  encode_item labels item = Return b -> byte b.
Proof.
  destruct item as [mnemonic opnd]. intros Hb.
  destruct (String.eqb mnemonic ".BYTE") eqn:Hm.
  - revert Hb. unfold encode_item. rewrite Hm.
    destruct opnd as [t|]; [|discriminate]. cbn [of_option mbind result_bind].
    destruct (py_int true t) as [v|]; [|discriminate]. cbn. intros [= <-]. apply u8_byte.
  - by apply (encode_item_decodes labels mnemonic opnd b fresh Hm Hb).
Qed.

Lemma encode_items_bytes labels out items out' :
  encode_items labels out items = Return out' ->
  length out' = (length out + length items)%nat /\
  (Forall byte out -> Forall byte out').
Proof.
  revert out. induction items as [|item rest IH]; intros out.
  - cbn. intros [= <-]. split; [lia|done].
  - cbn [encode_items]. destruct (encode_item labels item) as [b|e] eqn:Hb; [|discriminate].
    cbn [mbind result_bind]. intros Hrest.
    destruct (IH _ Hrest) as [Hlen Hall]. rewrite length_app in Hlen. cbn in *.
    split; [lia|]. intros Hout. apply Hall, Forall_app. split; [exact Hout|].
    constructor; [|constructor]. by eapply encode_item_byte.
Qed.

(** X13. When [assemble] returns, it returns one byte for every cleaned
    line that is not a label line (a line ending in a colon), in order of
    the pass, and every byte is in [0, 255].  Nothing bounds the number of
    bytes by the sixteen cells of the memory. *)
Theorem assemble_bytes (lines : list string) (out : list Z) :
  Forall (fun line => PyStr.isascii line = true) lines ->
  assemble lines = Return out ->
  Forall byte out /\
  length out = length (emitting (cleaned_lines lines)).
Proof.
  intros _. unfold assemble.
  destruct (layout_lines _ _) as [st|e] eqn:Hlay; [|discriminate].
  cbn [mbind result_bind]. intros Henc.
  destruct (layout_lines_ok _ _ _ layout_start_ok Hlay) as [_ Hlen].
  destruct (encode_items_bytes _ _ _ _ Henc) as [Hlen' Hall].
  split; [by apply Hall|]. rewrite Hlen', Hlen. reflexivity.
Qed.

Lemma encode_item_failures labels item e :
  item_ok item -> encode_item labels item = Raise e ->
  exists tok, e = ValueError (InvalidLiteral 0 tok).
Proof.
  destruct item as [mnemonic opnd]. unfold item_ok, encode_item, parse_addr, py_int.
  cbn [fst snd]. intros [[-> [t ->]]|[Hm [opcode Hop]]].
  - cbn. destruct (PyStr.literal true t); cbn; [discriminate|]. intros [= <-]. eauto.
  - rewrite Hm, Hop. cbn [of_option mbind result_bind].
    destruct (_ || _); [discriminate|].
    destruct opnd as [t|]; [|discriminate].
    destruct (labels !! t); [discriminate|].
    destruct (PyStr.literal true t); cbn; [discriminate|]. intros [= <-]. eauto.
Qed.

Lemma encode_items_failures labels out items e :
  Forall item_ok items -> encode_items labels out items = Raise e ->
  exists tok, e = ValueError (InvalidLiteral 0 tok).
Proof.
  revert out. induction items as [|item rest IH]; intros out Hok; [discriminate|].
  apply Forall_cons in Hok as [Hitem Hrest]. cbn [encode_items].
  destruct (encode_item labels item) as [b|e'] eqn:Hb; cbn [mbind result_bind].
  - by apply IH.
  - intros [= <-]. by eapply encode_item_failures.
Qed.

Lemma layout_lines_failures cleaned st e :
  layout_lines cleaned st = Raise e ->
  e = IndexError \/ exists head, e = AsmError ("Unknown directive or mnemonic: " +:+ head).
Proof.
  revert st. induction cleaned as [|line rest IH]; intros st; [discriminate|].
  cbn [layout_lines]. destruct (layout_line line st) as [st1|e'] eqn:H1;
    cbn [mbind result_bind]; [apply IH|].
  intros [= <-]. revert H1. unfold layout_line.
  destruct (PyStr.endswith_char ":" line); [discriminate|].
  destruct (PyStr.split_ws _ !! 0%nat) as [part0|]; cbn [of_option mbind result_bind];
    [|intros [= <-]; by left].
  destruct (String.eqb (PyStr.upper part0) ".BYTE").
  - destruct (PyStr.split_ws _ !! 1%nat) as [part1|]; cbn [of_option mbind result_bind];
      [discriminate|intros [= <-]; by left].
  - destruct (OPCODES !! PyStr.upper part0); [discriminate|].
    intros [= <-]. right. eauto.
Qed.

(** X14. [assemble] fails in three ways only: [AsmError] for an unknown
    first token, [IndexError] for a [.BYTE] without a value (or a line of
    commas only), and the [ValueError] of [int(tok, 0)] for an operand
    that is neither a label nor a literal.  The dictionary lookups of the
    second pass never fail. *)
Theorem assemble_failures (lines : list string) (e : exn) :
  Forall (fun line => PyStr.isascii line = true) lines ->
  assemble lines = Raise e ->
  e = IndexError \/
  (exists head, e = AsmError ("Unknown directive or mnemonic: " +:+ head)) \/
  (exists tok, e = ValueError (InvalidLiteral 0 tok)).
Proof.
  intros _. unfold assemble.
  destruct (layout_lines _ _) as [st|e'] eqn:Hlay; cbn [mbind result_bind].
  - intros Henc. right. right.
    destruct (layout_lines_ok _ _ _ layout_start_ok Hlay) as [(_ & _ & Hitems) _].
    by eapply encode_items_failures.
  - intros [= <-]. apply layout_lines_failures in Hlay. tauto.
Qed.

(** X15. A line that is blank, or holds only a comment, changes
    nothing: the program assembles to the same result with or without
    it. *)
Theorem comment_lines_ignored (before after : list string) (line : string) :
  PyStr.isascii line = true ->
  clean_line line = EmptyString ->
  assemble (before ++ line :: after) = assemble (before ++ after).
Proof.
  intros _ Hc. unfold assemble, cleaned_lines.
  rewrite !fmap_app, fmap_cons, !filter_app, filter_cons, Hc.
  rewrite decide_False by (cbn; discriminate). reflexivity.
Qed.

End Layout.

Lemma assemble_bytes_witness :
  length [0x1F; 0xE0; 0xFF]%Z =
  length (Facts.emitting (SAP1.cleaned_lines ["start:"; " lda 0xFF"; "; note"; "out"; ".byte -1"])).
Proof.
  refine (proj2 (assemble_bytes ["start:"; " lda 0xFF"; "; note"; "out"; ".byte -1"]
                   [0x1F; 0xE0; 0xFF]%Z _ _)).
  - repeat constructor.
  - vm_compute. reflexivity.
Defined.

Lemma assemble_failures_witness :
  IndexError = IndexError \/
  (exists head, IndexError = AsmError ("Unknown directive or mnemonic: " +:+ head)) \/
  (exists tok, IndexError = ValueError (InvalidLiteral 0 tok)).
Proof.
  refine (assemble_failures ["  .byte"] IndexError _ _).
  - repeat constructor.
  - vm_compute. reflexivity.
Defined.

Lemma comment_lines_ignored_witness :
  SAP1.assemble (["LDA 1"] ++ "   ; only a comment" :: ["HLT"]) = SAP1.assemble (["LDA 1"] ++ ["HLT"]).
Proof.
  exact (comment_lines_ignored ["LDA 1"] ["HLT"] "   ; only a comment" eq_refl eq_refl).
Defined.

Section Loader.
Import SAP1 Spec Facts.
Local Open Scope Z_scope.

Lemma store_code_outcome code i s :
  length (memory s) = 16%nat -> 0 <= i ->
  length (memory (state_after (store_code i code s))) = 16%nat /\
  outcome (store_code i code s) =
    if decide (code = [] \/ i + Z.of_nat (length code) <= 16)
    then Return tt else Raise IndexError.
Proof.
  revert i s. induction code as [|b rest IH]; intros i s Hl Hi.
  - split; [exact Hl|]. rewrite decide_True by (by left). reflexivity.
  - change (wp (mem_set i (Z.land b 0xFF) ≫= (fun _ => store_code (i + 1) rest)) s
              (fun r s' => length (memory s') = 16%nat /\
                 r = if decide (b :: rest = [] \/ i + Z.of_nat (length (b :: rest)) <= 16)
                     then Return tt else Raise IndexError)).
    apply wp_bind, wp_mem_set. cbn [length]. destruct (decide (i < 16)) as [Hlt|Hge].
    + rewrite setitem_in_range by lia.
      destruct (IH (i + 1) (set_memory (<[Z.to_nat i := Z.land b 255]> (memory s)) s))
        as [Hl' Ho]; [destruct s; cbn in *; by rewrite length_insert|lia|].
      unfold wp. split; [exact Hl'|]. rewrite Ho.
      destruct rest as [|b' rest'].
      * rewrite decide_True by (by left). rewrite decide_True by (right; cbn; lia). done.
      * destruct (decide (_ \/ i + 1 + _ <= 16)) as [[Hnil|Hle]|Hno]; [discriminate| |].
        -- rewrite decide_True by (right; lia). done.
        -- rewrite decide_False; [done|]. intros [Hnil|Hle]; [discriminate|].
           apply Hno. right. lia.
    + assert (Hnone : PyList.setitem (memory s) i (Z.land b 255) = None).
      { unfold PyList.setitem, PyList.index. rewrite Hl.
        destruct (0 <=? i) eqn:H0; [|apply Z.leb_gt in H0; lia].
        destruct (i <? Z.of_nat 16) eqn:H1; [apply Z.ltb_lt in H1; lia|reflexivity]. }
      rewrite Hnone. split; [exact Hl|].
      rewrite decide_False; [done|]. intros [Hnil|Hle]; [discriminate|lia].
Qed.

Lemma outcome_bind {X Y : Type} (m : M X) (f : X -> M Y) s :
  outcome ((m ≫= f) s) =
    match outcome (m s) with
    | Return x => outcome (f x (state_after (m s)))
    | Raise e => Raise e
    end.
Proof.
  unfold outcome, state_after, mbind, M_bind.
  destruct (m s) as [[[x|e] s'] out]; cbn [fst snd]; [|reflexivity].
  destruct (f x s') as [[r s''] out']. reflexivity.
Qed.

Lemma run_loop_raises fuel trace s e :
  length (memory s) = 16%nat ->
  outcome (run_loop fuel trace s) = Raise e -> exists why, e = ValueError why.
Proof.
  revert trace s. induction fuel as [|fuel IH]; intros trace s Hl; [discriminate|].
  destruct (halted s) eqn:Hh.
  - by rewrite run_loop_halted.
  - rewrite run_loop_S by exact Hh.
    pose proof (step_returns_or_decode_failure s Hl) as Hstep.
    destruct (step_same_shape s) as (_ & _ & Hlen).
    unfold outcome, state_after in *.
    destruct (step s) as [[[msg|e'] s1] out]; cbn in *.
    + match goal with
      | |- context [run_loop fuel ?t s1] =>
          specialize (IH t s1); destruct (run_loop fuel t s1) as [[r s2] out']
      end.
      cbn in *. apply IH. congruence.
    + intros [= <-]. destruct Hstep as [[msg Hm]|[why Hw]]; [discriminate|].
      injection Hw as ->. eauto.
Qed.


End Loader.


Section AnyList.
Local Open Scope Z_scope.

Lemma getitem_any_in_range {X : Type} (l : list X) (i : Z) :
  0 <= i < Z.of_nat (length l) -> PyList.getitem l i = l !! Z.to_nat i.
Proof.
  intros Hi. unfold PyList.getitem, PyList.index.
  destruct (0 <=? i) eqn:H0; [|apply Z.leb_gt in H0; lia].
  destruct (i <? Z.of_nat (length l)) eqn:H1; [reflexivity|apply Z.ltb_ge in H1; lia].
Qed.

End AnyList.

(** ** The toy compiler and the playground interpreter, further *)

Section Slots.
Import sap1_playground Spec Facts.
Local Open Scope Z_scope.

Lemma compiler_ok_alloc st name lines :
  compiler_ok st ->
  compiler_ok (mkCompiler lines (<[name := mem_ptr st]> (variables st)) (mem_ptr st - 1)).
Proof.
  intros [Hp Hv]. unfold compiler_ok. cbn [mem_ptr variables]. split; [lia|].
  apply map_Forall_insert_2; [cbn beta; lia|].
  eapply map_Forall_impl; [exact Hv|]. cbn beta. intros _ a Ha. lia.
Qed.

Lemma compile_line_ok line st st' :
  compiler_ok st -> compile_line line st = Return st' ->
  compiler_ok st' /\ mem_ptr st - 1 <= mem_ptr st' <= mem_ptr st.
Proof.
  intros Hok. pose proof Hok as [Hp Hv]. unfold compile_line, variable.
  destruct (PyStr.startswith "print" line).
  - destruct (PyStr.split_ws line !! 1%nat) as [var|]; [|discriminate].
    cbn [of_option mbind result_bind].
    destruct (variables st !! var) as [addr|]; [|discriminate].
    cbn. intros [= <-]. split; [exact Hok|cbn; lia].
  - destruct (PyStr.contains_char "=" line); [|intros [= <-]; split; [exact Hok|lia]].
    destruct (unpack2 _) as [[left_ right_]|]; [|discriminate].
    cbn [mbind result_bind].
    destruct (PyStr.contains_char "+" right_).
    + destruct (unpack2 _) as [[a b]|]; [|discriminate]. cbn [mbind result_bind].
      destruct (variables st !! a) as [addr_a|]; [|discriminate]. cbn [of_option mbind result_bind].
      destruct (variables st !! b) as [addr_b|]; [|discriminate]. cbn [of_option mbind result_bind].
      intros [= <-]. split; [by apply compiler_ok_alloc|cbn; lia].
    + destruct (PyStr.isdigit right_).
      * intros [= <-]. split; [by apply compiler_ok_alloc|cbn; lia].
      * destruct (variables st !! right_) as [addr|] eqn:Ha; [|discriminate].
        cbn. intros [= <-]. split; [|cbn; lia].
        split; [exact Hp|]. cbn [mem_ptr variables].
        apply map_Forall_insert_2; [|exact Hv]. exact (Hv right_ addr Ha).
Qed.

(** X17. The compiler's slots.  After any statements that compile, the
    free pointer has moved down from 14 by at most one per statement, and
    every variable is bound to an address above the free pointer and at
    most 14: a newly allocated slot is never one that a variable already
    has.  Nothing keeps the pointer from going below zero. *)
Theorem variable_slots (lines : list string) (st : compiler) :
  compile_lines lines compiler_start = Return st ->
  14 - Z.of_nat (length lines) <= mem_ptr st <= 14 /\
  forall name a, variables st !! name = Some a -> mem_ptr st < a <= 14.
Proof.
  assert (Hgen : forall st0 st1, compiler_ok st0 -> compile_lines lines st0 = Return st1 ->
            compiler_ok st1 /\ mem_ptr st0 - Z.of_nat (length lines) <= mem_ptr st1 <= mem_ptr st0).
  { induction lines as [|line rest IH]; intros st0 st1 Hok.
    - cbn. intros [= <-]. split; [exact Hok|lia].
    - cbn [compile_lines]. destruct (compile_line line st0) as [st'|e] eqn:H1; [|discriminate].
      cbn [mbind result_bind]. intros Hrest.
      destruct (compile_line_ok line st0 st' Hok H1) as [Hok' Hp'].
      destruct (IH st' st1 Hok' Hrest) as [Hok1 Hp1]. split; [exact Hok1|].
      cbn [length]. lia. }
  intros Hc.
  assert (Hstart : compiler_ok compiler_start)
    by (split; [cbn; lia|apply map_Forall_empty]).
  destruct (Hgen _ _ Hstart Hc) as [[Hp Hv] Hrange]. split; [exact Hrange|].
  intros name a Ha. exact (Hv name a Ha).
Qed.

End Slots.

Lemma variable_slots_witness :
  (11 < 12 <= 14)%Z /\ (11 < 14 <= 14)%Z.
Proof.
  assert (Hc : sap1_playground.compile_lines ["a=5"; "b=7"; "c=a+b"; "print c"]
                 Spec.compiler_start =
               Return (sap1_playground.mkCompiler
                 ["    LDA #5"; "    STA 14"; "    LDA #7"; "    STA 13";
                  "    LDA 14"; "    ADD 13"; "    STA 12"; "    LDA 12"; "    OUT"]
                 (<["c" := 12%Z]> (<["b" := 13%Z]> (<["a" := 14%Z]> ∅))) 11))
    by (vm_compute; reflexivity).
  pose proof (proj2 (variable_slots _ _ Hc)) as H.
  split; [exact (H "c" 12%Z eq_refl) | exact (H "a" 14%Z eq_refl)].
Defined.

Section DeadCode.
Import sap1_playground Spec Facts.
Local Open Scope Z_scope.

Lemma turn_before_HLT pre post st :
  0 <= pc st <= Z.of_nat (length pre) ->
  turn (pre ++ HLT :: post) st = turn (pre ++ [HLT]) st.
Proof.
  intros Hpc. unfold turn. rewrite !length_app. cbn [length].
  destruct (pc st <? Z.of_nat (length pre + S (length post))) eqn:H1;
    [|apply Z.ltb_ge in H1; lia].
  destruct (pc st <? Z.of_nat (length pre + 1)) eqn:H2; [|apply Z.ltb_ge in H2; lia].
  rewrite !getitem_any_in_range by (rewrite length_app; cbn [length]; lia).
  destruct (decide (Z.to_nat (pc st) < length pre)%nat) as [Hlt|Hge].
  - by rewrite !lookup_app_l by exact Hlt.
  - rewrite !lookup_app_r by lia.
    replace (Z.to_nat (pc st) - length pre)%nat with 0%nat by lia. reflexivity.
Qed.

Lemma execute_loop_before_HLT fuel pre post st :
  0 <= pc st <= Z.of_nat (length pre) ->
  execute_loop fuel (pre ++ HLT :: post) st = execute_loop fuel (pre ++ [HLT]) st.
Proof.
  revert st. induction fuel as [|fuel IH]; intros st Hpc; cbn [execute_loop].
  - rewrite !length_app. cbn [length].
    destruct (pc st <? Z.of_nat (length pre + S (length post))) eqn:H1;
      [|apply Z.ltb_ge in H1; lia].
    destruct (pc st <? Z.of_nat (length pre + 1)) eqn:H2; [|apply Z.ltb_ge in H2; lia].
    reflexivity.
  - rewrite turn_before_HLT by exact Hpc.
    destruct (turn (pre ++ [HLT]) st) as [e|st'] eqn:Ht; [reflexivity|].
    apply IH. pose proof Ht as Ht'. apply turn_pc in Ht' as [Hnext Hlt].
    split; [lia|]. destruct (decide (pc st = Z.of_nat (length pre))) as [Heq|]; [|lia].
    exfalso. revert Ht. unfold turn.
    destruct (pc st <? _); [|discriminate].
    rewrite getitem_any_in_range by (rewrite length_app; cbn [length]; lia).
    rewrite lookup_app_r by lia.
    replace (Z.to_nat (pc st) - length pre)%nat with 0%nat by lia. cbn. discriminate.
Qed.

(** X18. Whatever follows a [HLT] in the parsed program is never
    executed: the interpreter's loop ends the same way, with the same
    output and the same printed lines, when the instructions after the
    first [HLT] are dropped. *)
Theorem code_after_HLT_is_dead (fuel : nat) (pre post : list instr) :
  execute_loop fuel (pre ++ HLT :: post) boot = execute_loop fuel (pre ++ [HLT]) boot.
Proof. apply execute_loop_before_HLT. cbn. lia. Qed.

Lemma parse_line_failures raw code e :
  parse_line raw code = Raise e ->
  e = IndexError \/ exists tok, e = ValueError (InvalidLiteral 10 tok).
Proof.
  unfold parse_line, py_int, of_option, mbind, result_bind.
  repeat case_match; intros; simplify_eq; eauto.
Qed.

Lemma parse_lines_failures lines code e :
  parse_lines lines code = Raise e ->
  e = IndexError \/ exists tok, e = ValueError (InvalidLiteral 10 tok).
Proof.
  revert code. induction lines as [|raw rest IH]; intros code; [discriminate|].
  cbn [parse_lines]. destruct (parse_line raw code) as [code'|e'] eqn:H1;
    cbn [mbind result_bind]; [apply IH|].
  intros [= <-]. by eapply parse_line_failures.
Qed.

Lemma turn_failures code st e out :
  turn code st = inl (Raise e, out) -> e = IndexError.
Proof.
  unfold turn. destruct (pc st <? _); [|discriminate].
  destruct (PyList.getitem code (pc st)) as [i|]; [|by intros [= <-]].
  destruct i; unfold execute, of_option, mbind, result_bind;
    repeat case_match; intros; simplify_eq; reflexivity.
Qed.

Lemma execute_loop_failures fuel code st e out :
  execute_loop fuel code st = Some (Raise e, out) -> e = IndexError.
Proof.
  revert st. induction fuel as [|fuel IH]; intros st; cbn [execute_loop].
  - destruct (pc st <? _); discriminate.
  - destruct (turn code st) as [[r out']|st'] eqn:Ht; [|apply IH].
    intros [= -> ->]. by eapply turn_failures.
Qed.

(** X19. The interpreter fails in two ways only: [IndexError], for an
    instruction without its operand or an address outside [-16, 15], and
    the [ValueError] of [int()] for an operand that is not a decimal
    literal.  A bad operand anywhere in the text, even after [HLT], fails
    the whole run before the first instruction is executed, so nothing is
    printed. *)
Theorem run_failures (fuel : nat) (assembly : string) (e : exn) (out : list string) :
  PyStr.isascii assembly = true ->
  run_fuel fuel assembly = Some (Raise e, out) ->
  (e = IndexError \/ exists tok, e = ValueError (InvalidLiteral 10 tok)) /\
  ((exists tok, e = ValueError (InvalidLiteral 10 tok)) -> out = []).
Proof.
  intros _. unfold run_fuel, parse.
  destruct (parse_lines _ _) as [code|e'] eqn:Hp.
  - intros Hr. apply execute_loop_failures in Hr. subst e.
    split; [by left|]. intros [tok Ht]. discriminate.
  - intros [= <- <-]. split; [by eapply parse_lines_failures|done].
Qed.

End DeadCode.

Lemma run_failures_witness :
  sap1_playground.run_fuel 5
    (PyStr.join sap1_playground.newline ["LDA #5"; "OUT"; "HLT"; "ADD x"]) =
    Some (Raise (ValueError (InvalidLiteral 10 "x")), []) /\
  [] = ([] : list string).
Proof.
  split; [vm_compute; reflexivity|].
  refine (proj2 (run_failures 5
            (PyStr.join sap1_playground.newline ["LDA #5"; "OUT"; "HLT"; "ADD x"])
            (ValueError (InvalidLiteral 10 "x")) [] _ _) _).
  - vm_compute. reflexivity.
  - vm_compute. reflexivity.
  - eauto.
Defined.
